(** * code_quality.py: changed-line extraction and checker dispatch

    A shallow embedding of [src/code_quality.py].  The script asks git for
    the diff against a reference, turns the diff into a mapping from file
    to changed line ranges ([parse_diff]) and hands those ranges to
    external formatters and linters ([run_formatter], [run_flake8]).

    Conventions of the embedding.
    - A Python [str] is a Rocq [string]; a character is a code point
      below 256.  The character classes used below ([\s], [\d], [.], the
      line boundaries of [str.splitlines]) are those of CPython on these
      code points.
    - A Python [int] is a [Z].
    - Exceptions are values of [exn]; a computation that may raise returns
      a [result].
    - [pathlib.Path] is [PosixPath] (the script is run on a POSIX system).
    - The external world (git, the formatters, the linter) is an oracle
      from the history of invocations and the next invocation to what the
      child process does.
    - What a child wrote is either the UTF-8 encoding of a text or bytes
      that do not decode; a child that cannot be started comes with the
      reason.
    - [argparse] is not modelled: [parse_args] starts from the namespace
      it returns, with the number of segments to strip as a [nat].
    - The interpreter is CPython 3.11 or later with its default settings:
      [int] converts digit strings of at most 4300 characters, and [re]
      compiles repetition counts below [MAXREPEAT]. *)

From Stdlib Require Import String Ascii List NArith ZArith Lia Bool.
From Stdlib Require Import DecimalString DecimalPos.
Import ListNotations.

Open Scope string_scope.
Open Scope list_scope.

(** ** Exceptions and results *)

Inductive exn : Type :=
| ValueError
| TypeError
| OverflowError
| UnicodeDecodeError
| OSError
| FileNotFoundError
| PermissionError
| NotADirectoryError
| CalledProcessError (returncode : Z) (cmd : list string)
| SystemExit (code : Z).

Inductive result (A : Type) : Type :=
| Ok (a : A)
| Raise (e : exn).

Arguments Ok {A} a.
Arguments Raise {A} e.

Definition rbind {A B : Type} (r : result A) (f : A -> result B) : result B :=
  match r with
  | Ok a => f a
  | Raise e => Raise e
  end.

(** ** Built-in string operations *)

Module PyStr.

Definition ord (c : ascii) : nat := nat_of_ascii c.

(** [str.isspace] on one character; also the class [\s] of [re]. *)
Definition isspace (c : ascii) : bool :=
  let n := ord c in
  (((9 <=? n) && (n <=? 13)) || ((28 <=? n) && (n <=? 32))
   || (n =? 133) || (n =? 160))%nat.

(** The class [\d] of [re], which is also what [int] accepts as a digit. *)
Definition isdecimal (c : ascii) : bool :=
  let n := ord c in ((48 <=? n) && (n <=? 57))%nat.

(** The line boundaries of [str.splitlines]. *)
Definition islinebreak (c : ascii) : bool :=
  let n := ord c in
  (((10 <=? n) && (n <=? 13)) || ((28 <=? n) && (n <=? 30))
   || (n =? 133))%nat.

Definition CR : ascii := ascii_of_nat 13.
Definition LF : ascii := ascii_of_nat 10.

(** [str.splitlines()]: the lines without their terminators; a carriage
    return followed by a line feed is one terminator; no empty last line
    after a final terminator. *)
Fixpoint splitlines (s : string) : list string :=
  match s with
  | EmptyString => []
  | String c rest =>
      if islinebreak c then
        match rest with
        | String d rest' =>
            if ((c =? CR) && (d =? LF))%char
            then EmptyString :: splitlines rest'
            else EmptyString :: splitlines rest
        | EmptyString => [EmptyString]
        end
      else
        match splitlines rest with
        | [] => [String c EmptyString]
        | l :: ls => String c l :: ls
        end
  end.

Fixpoint lstrip (s : string) : string :=
  match s with
  | String c rest => if isspace c then lstrip rest else s
  | EmptyString => EmptyString
  end.

Fixpoint rstrip (s : string) : string :=
  match s with
  | EmptyString => EmptyString
  | String c rest =>
      match rstrip rest with
      | EmptyString => if isspace c then EmptyString else String c EmptyString
      | r => String c r
      end
  end.

(** [str.strip()] *)
Definition strip (s : string) : string := rstrip (lstrip s).

Definition digit_value (c : ascii) : Z := Z.of_nat (ord c) - 48.

Fixpoint int_digits (acc : Z) (s : string) : option Z :=
  match s with
  | EmptyString => Some acc
  | String c rest =>
      if isdecimal c then int_digits (10 * acc + digit_value c) rest
      else None
  end.

(** The longest string of digits [int] converts
    ([sys.int_info.default_max_str_digits]); every digit counts, leading
    zeros included. *)
Definition int_max_str_digits : nat := 4300.

(** [int(s)] for a string of decimal digits: [ValueError] when there are
    more than [int_max_str_digits] of them.  On any other string the
    model raises [ValueError] as well; CPython accepts a few more forms
    (a sign, surrounding blanks, underscores), none of which the callers
    below can supply. *)
Definition int (s : string) : result Z :=
  match s with
  | EmptyString => Raise ValueError
  | _ => match int_digits 0 s with
         | Some z =>
             if (String.length s <=? int_max_str_digits)%nat then Ok z
             else Raise ValueError
         | None => Raise ValueError
         end
  end.

(** [str(z)] of an integer, as an f-string formats it. *)
Definition str_of_int (z : Z) : string := NilZero.string_of_int (Z.to_int z).

(** Truth value of a string, and of a value that is a string or [None]. *)
Definition truthy (s : string) : bool :=
  match s with EmptyString => false | _ => true end.

Definition truthy_opt (o : option string) : bool :=
  match o with Some s => truthy s | None => false end.

(** [s.split(sep)] for a one-character separator. *)
Fixpoint split (sep : ascii) (s : string) : list string :=
  match s with
  | EmptyString => [EmptyString]
  | String c rest =>
      if (c =? sep)%char then EmptyString :: split sep rest
      else match split sep rest with
           | [] => [String c EmptyString]
           | p :: ps => String c p :: ps
           end
  end.

(** [sep.join(parts)] *)
Fixpoint join (sep : string) (parts : list string) : string :=
  match parts with
  | [] => EmptyString
  | [p] => p
  | p :: ps => p ++ sep ++ join sep ps
  end.

(** [s.rfind(c)]; [None] stands for -1. *)
Fixpoint rfind (c : ascii) (s : string) : option nat :=
  match s with
  | EmptyString => None
  | String a rest =>
      match rfind c rest with
      | Some i => Some (S i)
      | None => if (a =? c)%char then Some 0%nat else None
      end
  end.

End PyStr.

(** ** The fragment of [re] the script uses

    A backtracking matcher with the priorities of CPython's engine: a
    greedy quantifier tries the longest repetition first, a lazy one the
    shortest, and the first complete match wins. *)

Module Re.

Inductive cls : Type :=
| Dot                (* [.]  : anything but a line feed *)
| Digit              (* [\d] *)
| NonSpace           (* [\S] *)
| Lit (c : ascii).   (* a literal character *)

Definition cls_test (k : cls) (c : ascii) : bool :=
  match k with
  | Dot => negb (c =? PyStr.LF)%char
  | Digit => PyStr.isdecimal c
  | NonSpace => negb (PyStr.isspace c)
  | Lit a => (c =? a)%char
  end.

Inductive regex : Type :=
| Eps
| Char (k : cls)
| Cat (r1 r2 : regex)
| Star (k : cls) (greedy : bool)   (* [k*] and [k*?] *)
| Times (n : nat) (r : regex)      (* [r{n}] *)
| Maybe (r : regex)                (* [r?] *)
| Group (i : nat) (r : regex).     (* the i-th capturing group *)

(** [k+] *)
Definition Plus (k : cls) : regex := Cat (Char k) (Star k true).

(** A literal string. *)
Fixpoint Str (s : string) : regex :=
  match s with
  | EmptyString => Eps
  | String c rest => Cat (Char (Lit c)) (Str rest)
  end.

(** The text of the groups that took part in the match. *)
Definition groups : Type := list (nat * string).

Fixpoint group (g : groups) (i : nat) : option string :=
  match g with
  | [] => None
  | (j, s) :: g' => if (i =? j)%nat then Some s else group g' i
  end.

Definition set_group (i : nat) (s : string) (g : groups) : groups :=
  (i, s) :: g.

(** What was read between the input [s] and its suffix [s']. *)
Definition consumed (s s' : string) : string :=
  substring 0 (String.length s - String.length s') s.

Definition cont : Type := string -> groups -> option groups.

Fixpoint star (k : cls) (greedy : bool) (kont : cont)
         (s : string) (g : groups) : option groups :=
  match s with
  | String a s' =>
      if cls_test k a then
        if greedy then
          match star k greedy kont s' g with
          | Some m => Some m
          | None => kont s g
          end
        else
          match kont s g with
          | Some m => Some m
          | None => star k greedy kont s' g
          end
      else kont s g
  | EmptyString => kont s g
  end.

(** [n] repetitions of what [m] matches, then [kont]. *)
Fixpoint times (m : string -> groups -> cont -> option groups) (n : nat)
         (kont : cont) (s : string) (g : groups) : option groups :=
  match n with
  | O => kont s g
  | S n' => m s g (fun s' g' => times m n' kont s' g')
  end.

Fixpoint run (r : regex) (s : string) (g : groups) (kont : cont)
  {struct r} : option groups :=
  match r with
  | Eps => kont s g
  | Char k =>
      match s with
      | String a s' => if cls_test k a then kont s' g else None
      | EmptyString => None
      end
  | Cat r1 r2 => run r1 s g (fun s' g' => run r2 s' g' kont)
  | Star k greedy => star k greedy kont s g
  | Times n r1 => times (run r1) n kont s g
  | Maybe r1 =>
      match run r1 s g kont with
      | Some m => Some m
      | None => kont s g
      end
  | Group i r1 =>
      run r1 s g (fun s' g' => kont s' (set_group i (consumed s s') g'))
  end.

(** [pattern.match(s)]: a match anchored at the start of [s]. *)
Definition re_match (r : regex) (s : string) : option groups :=
  run r s [] (fun _ g => Some g).

(** The bound of the repetition counts ([_sre.MAXREPEAT], 2^32 - 1): the
    compiler of patterns refuses a count that is not below it. *)
Definition MAXREPEAT : N := 4294967295.

End Re.

(** ** [pathlib.PosixPath] *)

Module Pathlib.

(** A path is kept as pathlib keeps it: the root and the components,
    with empty components and [.] dropped. *)
Record Path : Type := mkPath { root : string; tail : list string }.

Definition splitroot (p : string) : string * string :=
  match p with
  | String "/" (String "/" (String "/" r)) => ("/", String "/" (String "/" r))
  | String "/" (String "/" r) => ("//", r)
  | String "/" r => ("/", r)
  | _ => (EmptyString, p)
  end.

Definition keep_part (x : string) : bool :=
  PyStr.truthy x && negb (x =? ".")%string.

(** [Path(s)] *)
Definition of_string (s : string) : Path :=
  let '(rt, rel) := splitroot s in
  mkPath rt (filter keep_part (PyStr.split "/" rel)).

(** [str(p)] *)
Definition str (p : Path) : string :=
  match (root p ++ PyStr.join "/" (tail p))%string with
  | EmptyString => "."
  | s => s
  end.

(** [p.name] *)
Definition name (p : Path) : string := last (tail p) EmptyString.

(** [p.suffix] (CPython up to 3.13) *)
Definition suffix (p : Path) : string :=
  let nm := name p in
  match PyStr.rfind "." nm with
  | Some i =>
      if ((0 <? i) && (i <? String.length nm - 1))%nat
      then substring i (String.length nm - i) nm
      else EmptyString
  | None => EmptyString
  end.

Definition eqb (p q : Path) : bool :=
  (root p =? root q)%string
  && (if list_eq_dec string_dec (tail p) (tail q) then true else false).

End Pathlib.

Declare Scope result_scope.
Delimit Scope result_scope with result.
Notation "x <- e ;; k" := (rbind e (fun x => k))
  (at level 61, e at next level, right associativity) : result_scope.
Local Open Scope result_scope.

(** ** [parse_diff] *)

Import Pathlib.

(** [slice(start, stop, step)] *)
Record slice : Type := mkSlice { start : Z; stop : Z; step : Z }.

(** The dictionary built by [parse_diff]: keys in insertion order, each
    with the list of its ranges. *)
Definition dict : Type := list (Path * list slice).

(** [d.setdefault(key, []).append(v)] *)
Fixpoint setdefault_append (d : dict) (key : Path) (v : slice) : dict :=
  match d with
  | [] => [(key, [v])]
  | (k, l) :: d' =>
      if Pathlib.eqb key k then (k, l ++ [v]) :: d'
      else (k, l) :: setdefault_append d' key v
  end.

(** The pattern for the header of the new file (line 69): three plus
    signs and a blank; [n_path_strip] times group 1, a lazy run of any
    characters and a slash; then group 2, a greedy run of non-blank
    characters.  The anchor at the start is what [re_match] does. *)
Definition filename_regex (n_path_strip : nat) : Re.regex :=
  Re.Cat (Re.Str "+++ ")
    (Re.Cat
       (Re.Times n_path_strip
          (Re.Group 1 (Re.Cat (Re.Star Re.Dot false) (Re.Char (Re.Lit "/")))))
       (Re.Group 2 (Re.Star Re.NonSpace true))).

(** [re.compile] of that pattern: the count is written into the pattern
    between braces, and a count of [MAXREPEAT] or more is refused with
    [OverflowError]. *)
Definition compile_filename_regex (n_path_strip : nat) : result Re.regex :=
  if (Re.MAXREPEAT <=? N.of_nat n_path_strip)%N then Raise OverflowError
  else Ok (filename_regex n_path_strip).

(** The pattern for a hunk header (line 70), [^@@.*?\+(\d+)(,(\d+))?]. *)
Definition lineno_regex : Re.regex :=
  Re.Cat (Re.Str "@@")
    (Re.Cat (Re.Star Re.Dot false)
       (Re.Cat (Re.Char (Re.Lit "+"))
          (Re.Cat (Re.Group 1 (Re.Plus Re.Digit))
             (Re.Maybe
                (Re.Group 2
                   (Re.Cat (Re.Char (Re.Lit ","))
                      (Re.Group 3 (Re.Plus Re.Digit)))))))).

(** [Path(match[i])]: a group that did not take part is [None], on which
    the constructor raises. *)
Definition Path_of_group (o : option string) : result Path :=
  match o with
  | Some s => Ok (Pathlib.of_string s)
  | None => Raise TypeError
  end.

(** [int(match[i])] *)
Definition int_of_group (o : option string) : result Z :=
  match o with
  | Some s => PyStr.int s
  | None => Raise TypeError
  end.

(** The variables the loop of [parse_diff] updates. *)
Definition loop_state : Type := option Path * dict.

(** One iteration of the loop over the lines of the diff. *)
Definition loop_body (n_path_strip : nat) (st : loop_state) (line : string)
  : result loop_state :=
  let '(current_file, lines) := st in
  current_file <-
    match Re.re_match (filename_regex n_path_strip) line with
    | Some m => p <- Path_of_group (Re.group m 2) ;; Ok (Some p)
    | None => Ok current_file
    end ;;
  match current_file with
  | None => Ok (current_file, lines)
  | Some file =>
      match Re.re_match lineno_regex line with
      | Some m =>
          start_line <- int_of_group (Re.group m 1) ;;
          n_lines <-
            (if PyStr.truthy_opt (Re.group m 3)
             then int_of_group (Re.group m 3) else Ok 1%Z) ;;
          if (n_lines =? 0)%Z then Ok (current_file, lines)
          else
            let end_line := (start_line + n_lines)%Z in
            Ok (current_file,
                setdefault_append lines file (mkSlice start_line end_line 1))
      | None => Ok (current_file, lines)
      end
  end.

Fixpoint for_lines (n_path_strip : nat) (st : loop_state) (ls : list string)
  : result loop_state :=
  match ls with
  | [] => Ok st
  | line :: ls' =>
      st' <- loop_body n_path_strip st line ;; for_lines n_path_strip st' ls'
  end.

(** The header pattern is compiled first (line 69); the loop then
    matches the lines against it. *)
Definition parse_diff (diff : string) (n_path_strip : nat) : result dict :=
  _ <- compile_filename_regex n_path_strip ;;
  st <- for_lines n_path_strip (None, []) (PyStr.splitlines diff) ;;
  Ok (snd st).

Local Close Scope result_scope.

(** ** Child processes and the effects of the script *)

(** A child process is started with an argument vector and, where the
    script gives one, a working directory. *)
Record invocation : Type := mkInvocation {
  argv : list string;
  cwd : option string
}.

(** What a child wrote to its standard output: bytes that are the UTF-8
    encoding of a text, or bytes that are not valid UTF-8. *)
Inductive output : Type :=
| Utf8 (text : string)
| NotUtf8.

(** [out.decode('utf-8')] *)
Definition decode (out : output) : result string :=
  match out with
  | Utf8 text => Ok text
  | NotUtf8 => Raise UnicodeDecodeError
  end.

(** Why a child could not be started: the executable or the working
    directory does not exist, may not be used, has a component that is
    not a directory; another error of the operating system; or an
    argument that holds a null character. *)
Inductive start_error : Type :=
| NoSuchFile
| NoPermission
| NoDirectory
| OtherError
| NullCharacter.

(** The exception [subprocess] raises for it. *)
Definition start_exn (why : start_error) : exn :=
  match why with
  | NoSuchFile => FileNotFoundError
  | NoPermission => PermissionError
  | NoDirectory => NotADirectoryError
  | OtherError => OSError
  | NullCharacter => ValueError
  end.

(** What the operating system does with an invocation: the child runs and
    exits with a return code, having written [stdout]; or it cannot be
    started. *)
Inductive child : Type :=
| Exited (returncode : Z) (stdout : output)
| NotStarted (why : start_error).

(** What the script has done so far: the children it started, oldest
    first, and the lines it printed. *)
Record world : Type := mkWorld {
  calls : list invocation;
  printed : list string
}.

Definition initial : world := mkWorld [] [].

(** An effectful computation. *)
Definition M (A : Type) : Type := world -> result A * world.

Definition ret {A : Type} (a : A) : M A := fun w => (Ok a, w).

Definition raise {A : Type} (e : exn) : M A := fun w => (Raise e, w).

Definition bind {A B : Type} (m : M A) (f : A -> M B) : M B :=
  fun w =>
    match m w with
    | (Ok a, w') => f a w'
    | (Raise e, w') => (Raise e, w')
    end.

Definition lift {A : Type} (r : result A) : M A := fun w => (r, w).

Declare Scope io_scope.
Delimit Scope io_scope with io.
Notation "x <- e ;; k" := (bind e (fun x => k))
  (at level 61, e at next level, right associativity) : io_scope.
Notation "e ;;; k" := (bind e (fun _ => k))
  (at level 61, right associativity) : io_scope.

(** [for x in xs: f(x)] *)
Fixpoint for_each {A : Type} (f : A -> M unit) (xs : list A) : M unit :=
  match xs with
  | [] => ret tt
  | x :: xs' => bind (f x) (fun _ => for_each f xs')
  end.

(** [if c: m] *)
Definition when (c : bool) (m : M unit) : M unit := if c then m else ret tt.

Definition print (line : string) : M unit :=
  fun w => (Ok tt, mkWorld (calls w) (printed w ++ [line])).

(** The status the interpreter exits with: 0 when the script runs to its
    end, the code of an uncaught [SystemExit], 1 for any other uncaught
    exception. *)
Definition exit_status {A : Type} (r : result A) : Z :=
  match r with
  | Ok _ => 0
  | Raise (SystemExit code) => code
  | Raise _ => 1
  end.

Definition CPP_EXTENSIONS : list string :=
  [".cpp"; ".cc"; ".cxx"; ".hpp"; ".hh"; ".hxx"; ".h"].
Definition PY_EXTENSIONS : list string := [".py"].

(** [x in extensions] *)
Definition elem (x : string) (xs : list string) : bool :=
  existsb (String.eqb x) xs.

(** The namespace [argparse] returns for the command line. *)
Record Namespace : Type := mkNamespace {
  py : bool;
  yapf : option string;
  flake8 : option string;
  cpp : bool;
  clang_format : option string;
  ref : string;
  prefix : nat
}.

Section Script.

Local Open Scope io_scope.

(** The operating system: given the children started so far and the next
    one, what that child does. *)
Variable os : list invocation -> invocation -> child.

(** [subprocess.run(cmd, cwd=cwd, check=check)]: returns the return code
    and the output of the child. *)
Definition subprocess_run (cmd : list string) (dir : option string)
           (check : bool) : M (Z * output) :=
  fun w =>
    let i := mkInvocation cmd dir in
    let w' := mkWorld (calls w ++ [i]) (printed w) in
    match os (calls w) i with
    | NotStarted why => (Raise (start_exn why), w')
    | Exited rc out =>
        if check && negb (rc =? 0)%Z
        then (Raise (CalledProcessError rc cmd), w')
        else (Ok (rc, out), w')
    end.

(** [subprocess.check_call(cmd)] *)
Definition check_call (cmd : list string) : M unit :=
  _ <- subprocess_run cmd None true ;; ret tt.

Definition call_pipe (cmd : list string) (dir : option string) : M string :=
  r <- subprocess_run cmd dir true ;;
  text <- lift (decode (snd r)) ;;
  ret (PyStr.strip text).

(** The part of [parse_args] after [parser.parse_args()] has returned
    the namespace [args]. *)
Definition parse_args (args : Namespace) : M Namespace :=
  when (negb (py args || PyStr.truthy_opt (yapf args)
              || PyStr.truthy_opt (flake8 args) || cpp args))
       (print "WARNING no checkers are enabled.") ;;;
  let args :=
    if py args then
      let args :=
        if negb (PyStr.truthy_opt (yapf args))
        then mkNamespace (py args) (Some "yapf") (flake8 args) (cpp args)
                         (clang_format args) (ref args) (prefix args)
        else args in
      if negb (PyStr.truthy_opt (flake8 args))
      then mkNamespace (py args) (yapf args) (Some "flake8") (cpp args)
                       (clang_format args) (ref args) (prefix args)
      else args
    else args in
  let args :=
    if cpp args then
      if negb (PyStr.truthy_opt (clang_format args))
      then mkNamespace (py args) (yapf args) (flake8 args) (cpp args)
                       (Some "clang-format") (ref args) (prefix args)
      else args
    else args in
  ret args.

Definition find_repo_root : M string :=
  fun w =>
    match call_pipe ["git"; "rev-parse"; "--show-toplevel"] None w with
    | (Raise (CalledProcessError _ _), w') =>
        (print
           "Failed to determine git root directory. Is this a git repository?" ;;;
         raise (SystemExit 1)) w'
    | other => other
    end.

Definition get_diff (repo_root : string) (ref : string) : M string :=
  current_branch <-
    call_pipe ["git"; "branch"; "--show-current"] (Some repo_root) ;;
  base_commit <-
    call_pipe ["git"; "merge-base"; ref; current_branch] (Some repo_root) ;;
  call_pipe ["git"; "diff"; "-U0"; "--no-color"; "--relative"; base_commit]
            (Some repo_root).

(** [f'--lines={l.start}{line_separator}{l.stop}'] *)
Definition lines_arg (line_separator : string) (l : slice) : string :=
  ("--lines=" ++ PyStr.str_of_int (start l) ++ line_separator
     ++ PyStr.str_of_int (stop l))%string.

(** The argument vector [run_formatter] builds for one file. *)
Definition formatter_cmd (cmd : string) (line_separator : string)
           (t : Path * list slice) : list string :=
  cmd :: Pathlib.str (fst t) :: "-i"
      :: map (lines_arg line_separator) (snd t).

Definition run_formatter (cmd : string) (modified_lines : dict)
           (extensions : list string) (line_separator : string) : M unit :=
  for_each
    (fun t => check_call (formatter_cmd cmd line_separator t))
    (filter (fun t => elem (Pathlib.suffix (fst t)) extensions)
            modified_lines).

Definition run_flake8 (cmd : string) (modified_lines : dict) : M unit :=
  for_each
    (fun fname =>
       _ <- subprocess_run [cmd; Pathlib.str fname] None false ;; ret tt)
    (filter (fun fn => elem (Pathlib.suffix fn) PY_EXTENSIONS)
            (map fst modified_lines)).

(** The name of a checker that is switched on. *)
Definition exe (o : option string) : string :=
  match o with Some s => s | None => EmptyString end.

Definition main (argv_namespace : Namespace) : M unit :=
  args <- parse_args argv_namespace ;;
  repo_root <- find_repo_root ;;
  diff <- get_diff repo_root (ref args) ;;
  modified_lines <- lift (parse_diff diff (prefix args)) ;;
  when (PyStr.truthy_opt (clang_format args))
       (run_formatter (exe (clang_format args)) modified_lines
                      CPP_EXTENSIONS ":") ;;;
  when (PyStr.truthy_opt (yapf args))
       (run_formatter (exe (yapf args)) modified_lines PY_EXTENSIONS "-") ;;;
  when (PyStr.truthy_opt (flake8 args))
       (run_flake8 (exe (flake8 args)) modified_lines).

End Script.

(** ** Closed forms of the two patterns

    What the matcher computes on [filename_regex] and [lineno_regex],
    written as direct recursions over the line; the lemmas of the next
    part prove that [Re.re_match] agrees with them. *)

Fixpoint take_while (p : ascii -> bool) (s : string) : string :=
  match s with
  | String a s' => if p a then String a (take_while p s') else EmptyString
  | EmptyString => EmptyString
  end.

Fixpoint drop_while (p : ascii -> bool) (s : string) : string :=
  match s with
  | String a s' => if p a then drop_while p s' else s
  | EmptyString => EmptyString
  end.

(** [s] without its prefix [p], when it has that prefix. *)
Fixpoint strip_prefix (p s : string) : option string :=
  match p with
  | EmptyString => Some s
  | String c p' =>
      match s with
      | String a s' => if (a =? c)%char then strip_prefix p' s' else None
      | EmptyString => None
      end
  end.

(** What is left of [s] after [n] segments, each ending at the next
    slash; there is none when a line feed or the end comes first. *)
Fixpoint skip_segments (n : nat) (s : string) : option string :=
  match n with
  | O => Some s
  | S m =>
      match s with
      | EmptyString => None
      | String a s' =>
          if (a =? "/")%char then skip_segments m s'
          else if (a =? PyStr.LF)%char then None
          else skip_segments (S m) s'
      end
  end.

(** The groups of a hunk header, read just after the plus sign. *)
Definition hunk_groups (s : string) : option Re.groups :=
  match s with
  | String d _ =>
      if PyStr.isdecimal d then
        let ds := take_while PyStr.isdecimal s in
        match drop_while PyStr.isdecimal s with
        | String c (String e r) =>
            if (c =? ",")%char && PyStr.isdecimal e then
              let es := take_while PyStr.isdecimal (String e r) in
              Some [(2%nat, String c es); (3%nat, es); (1%nat, ds)]
            else Some [(1%nat, ds)]
        | _ => Some [(1%nat, ds)]
        end
      else None
  | EmptyString => None
  end.

(** The first plus sign that digits follow, none of the characters before
    it being a line feed. *)
Fixpoint scan_plus (s : string) : option Re.groups :=
  match s with
  | EmptyString => None
  | String a s' =>
      match (if (a =? "+")%char then hunk_groups s' else None) with
      | Some m => Some m
      | None => if (a =? PyStr.LF)%char then None else scan_plus s'
      end
  end.

(** Number of occurrences of a character. *)
Fixpoint count_char (c : ascii) (s : string) : nat :=
  match s with
  | EmptyString => O
  | String a s' => (if (a =? c)%char then 1 else 0) + count_char c s'
  end.

Fixpoint all_chars (p : ascii -> bool) (s : string) : bool :=
  match s with
  | EmptyString => true
  | String a s' => p a && all_chars p s'
  end.

(** The path text [filename_regex] captures on a line, if it matches. *)
Definition header_path (n : nat) (line : string) : option string :=
  match strip_prefix "+++ " line with
  | Some r =>
      match skip_segments n r with
      | Some r' => Some (take_while (Re.cls_test Re.NonSpace) r')
      | None => None
      end
  | None => None
  end.

(** The groups [lineno_regex] captures on a line, if it matches. *)
Definition hunk_header (line : string) : option Re.groups :=
  match strip_prefix "@@" line with
  | Some r => scan_plus r
  | None => None
  end.

(** Pieces of the two patterns and the continuations they run with. *)

Definition final : Re.cont := fun _ g => Some g.

(** Group 1 of [filename_regex] *)
Definition segment : Re.regex :=
  Re.Group 1 (Re.Cat (Re.Star Re.Dot false) (Re.Char (Re.Lit "/"))).

Definition to_slash (s0 : string) (kont : Re.cont) : Re.cont :=
  fun s1 g1 =>
    match s1 with
    | String a s2 =>
        if (a =? "/")%char
        then kont s2 (Re.set_group 1 (Re.consumed s0 s2) g1)
        else None
    | EmptyString => None
    end.

(** What follows the plus sign in [lineno_regex] *)
Definition new_side : Re.regex :=
  Re.Cat (Re.Group 1 (Re.Plus Re.Digit))
    (Re.Maybe
       (Re.Group 2
          (Re.Cat (Re.Char (Re.Lit ",")) (Re.Group 3 (Re.Plus Re.Digit))))).

Definition plus_then : Re.cont :=
  fun s g =>
    match s with
    | String a s' =>
        if (a =? "+")%char then Re.run new_side s' g final else None
    | EmptyString => None
    end.

(** ** Invariants of the mapping *)

(** A range is not empty. *)
Definition range_ok (sl : slice) : Prop := (start sl < stop sl)%Z.

(** An entry of the mapping carries at least one range, none empty. *)
Definition entry_ok (kv : Path * list slice) : Prop :=
  snd kv <> [] /\ Forall range_ok (snd kv).

(** A non-empty string of decimal digits. *)
Definition digits (s : string) : Prop :=
  s <> EmptyString /\ all_chars PyStr.isdecimal s = true.

(** The longest run of decimal digits in a string. *)
Fixpoint longest_digits (s : string) : nat :=
  match s with
  | EmptyString => 0
  | String _ s' =>
      Nat.max (String.length (take_while PyStr.isdecimal s))
              (longest_digits s')
  end.

(** The numbers a hunk header of the line holds, if it is one, are within
    what [int] converts. *)
Definition short_numbers (line : string) : Prop :=
  forall m i s,
    Re.re_match lineno_regex line = Some m -> Re.group m i = Some s ->
    i = 1 \/ i = 3 ->
    String.length s <= PyStr.int_max_str_digits.

(** Group 1 is a number; group 3 is absent or a number. *)
Definition hunk_shape (m : Re.groups) : Prop :=
  (exists ds, Re.group m 1 = Some ds /\ digits ds)
  /\ (Re.group m 3 = None
      \/ exists es, Re.group m 3 = Some es /\ digits es).

(** The second half of [loop_body]: what is done with the line once the
    cursor is known. *)
Definition record_hunk (current_file : option Path) (lines : dict)
           (line : string) : result loop_state :=
  match current_file with
  | None => Ok (current_file, lines)
  | Some file =>
      match Re.re_match lineno_regex line with
      | Some m =>
          rbind (int_of_group (Re.group m 1)) (fun start_line =>
          rbind (if PyStr.truthy_opt (Re.group m 3)
                 then int_of_group (Re.group m 3) else Ok 1%Z) (fun n_lines =>
          if (n_lines =? 0)%Z then Ok (current_file, lines)
          else
            Ok (current_file,
                setdefault_append lines file
                  (mkSlice start_line (start_line + n_lines) 1))))
      | None => Ok (current_file, lines)
      end
  end.

(** The cursor after a line. *)
Definition next_file (n_path_strip : nat) (current_file : option Path)
           (line : string) : option Path :=
  match header_path n_path_strip line with
  | Some p => Some (Pathlib.of_string p)
  | None => current_file
  end.

(** A string in which a hunk header finds no plus sign and which [.]
    can cross: no plus sign and no line feed. *)
Definition plain_char (c : ascii) : bool :=
  negb (c =? "+")%char && negb (c =? PyStr.LF)%char.

Definition plain (s : string) : Prop := all_chars plain_char s = true.

(** A character within a line: not a line boundary. *)
Definition inline_char (c : ascii) : bool := negb (PyStr.islinebreak c).

(** A character of the old side of a hunk header: within the line, and
    not a plus sign. *)
Definition old_side_char (c : ascii) : bool :=
  negb (c =? "+")%char && negb (PyStr.islinebreak c).

(** [d.get(key, [])]: the ranges recorded for a file. *)
Fixpoint ranges_of (d : dict) (key : Path) : list slice :=
  match d with
  | [] => []
  | (k, l) :: d' => if Pathlib.eqb key k then l else ranges_of d' key
  end.

(** ** Sample inputs *)

Definition nl : string := String PyStr.LF EmptyString.

(** The diff of the end-to-end scenario. *)
Definition scenario_diff : string :=
  ("+++ b/a/b/file.py" ++ nl ++ "@@ -1,2 +3,4 @@" ++ nl)%string.




(** A header whose path is used up by the stripping, then a hunk. *)
Definition empty_path_diff : string :=
  ("+++ b/" ++ nl ++ "@@ -1,2 +3,4 @@" ++ nl)%string.

(** A file, then a file at the top level, with one segment to strip. *)
Definition short_header_diff : string :=
  ("+++ b/x/f.py" ++ nl ++ "@@ -1 +1 @@" ++ nl
   ++ "+++ g.py" ++ nl ++ "@@ -1 +5 @@" ++ nl)%string.

(** ** The two halves of [main] *)

Section ScriptParts.

Local Open Scope io_scope.

Variable os : list invocation -> invocation -> child.

(** Lines 104 to 107 of [main]: the arguments, the root, the diff and
    its ranges. *)
Definition prepare (argv_namespace : Namespace) : M (Namespace * dict) :=
  args <- parse_args argv_namespace ;;
  repo_root <- find_repo_root os ;;
  diff <- get_diff os repo_root (ref args) ;;
  modified_lines <- lift (parse_diff diff (prefix args)) ;;
  ret (args, modified_lines).

(** Lines 109 to 114 of [main]: the checkers that are switched on, in
    turn. *)
Definition run_checkers (args : Namespace) (modified_lines : dict)
  : M unit :=
  when (PyStr.truthy_opt (clang_format args))
       (run_formatter os (exe (clang_format args)) modified_lines
                      CPP_EXTENSIONS ":") ;;;
  when (PyStr.truthy_opt (yapf args))
       (run_formatter os (exe (yapf args)) modified_lines
                      PY_EXTENSIONS "-") ;;;
  when (PyStr.truthy_opt (flake8 args))
       (run_flake8 os (exe (flake8 args)) modified_lines).

End ScriptParts.

(** The bodies of the two loops over files, and the child each starts. *)
Definition checked_call (os : list invocation -> invocation -> child)
           {A : Type} (cmd_of : A -> list string) (x : A) : M unit :=
  check_call os (cmd_of x).

Definition unchecked_call (os : list invocation -> invocation -> child)
           {A : Type} (cmd_of : A -> list string) (x : A) : M unit :=
  bind (subprocess_run os (cmd_of x) None false) (fun _ => ret tt).

Definition call_of {A : Type} (cmd_of : A -> list string) (x : A)
  : invocation :=
  mkInvocation (cmd_of x) None.

(** The children a formatter is started as, one per file of [items]. *)
Definition formatter_calls (cmd : string) (line_separator : string)
           (items : dict) : list invocation :=
  map (fun t =>
         mkInvocation
           (cmd :: Pathlib.str (fst t) :: "-i"
              :: map (fun l =>
                        ("--lines=" ++ PyStr.str_of_int (start l)
                           ++ line_separator
                           ++ PyStr.str_of_int (stop l))%string)
                   (snd t))
           None)
      items.

(** The children the linter is started as. *)
Definition flake8_calls (cmd : string) (files : list Path)
  : list invocation :=
  map (fun fn => mkInvocation [cmd; Pathlib.str fn] None) files.

(** The entries of the mapping a checker for [extensions] applies to. *)
Definition qualifying (extensions : list string) (modified_lines : dict)
  : dict :=
  filter (fun t => elem (Pathlib.suffix (fst t)) extensions) modified_lines.

(** The exception, if any, ends the run with status 1. *)
Definition raises_one {A : Type} (m : M A) : Prop :=
  forall w e w', m w = (Raise e, w') -> exit_status (@Raise unit e) = 1%Z.

(** ** Sample worlds *)

(** A repository whose diff against the reference is [diff]; every child
    other than git exits with [rc]. *)
Definition sample_os (diff : string) (rc : Z)
  : list invocation -> invocation -> child :=
  fun _ i =>
    match argv i with
    | exe :: sub :: _ =>
        if (exe =? "git")%string then
          if (sub =? "rev-parse")%string then Exited 0 (Utf8 ("/repo" ++ nl))
          else if (sub =? "branch")%string
               then Exited 0 (Utf8 ("feature" ++ nl))
          else if (sub =? "merge-base")%string
               then Exited 0 (Utf8 ("abc123" ++ nl))
          else Exited 0 (Utf8 diff)
        else Exited rc (Utf8 EmptyString)
    | _ => Exited rc (Utf8 EmptyString)
    end.

(** A directory that is not a repository. *)
Definition no_repo_os : list invocation -> invocation -> child :=
  fun _ _ => Exited 128 (Utf8 EmptyString).

(** Command lines: [--yapf], [--clang-format], and no option at all. *)
Definition yapf_only : Namespace :=
  mkNamespace false (Some "yapf") None false None "main" 1.

Definition clang_format_only : Namespace :=
  mkNamespace false None None false (Some "clang-format") "main" 1.

Definition no_option : Namespace :=
  mkNamespace false None None false None "main" 0.

(** A diff that touches one C++ file. *)
Definition cpp_diff : string :=
  ("+++ b/src/x.cpp" ++ nl ++ "@@ -1,2 +10 @@" ++ nl)%string.

(** A world in which every child exits with 0 and writes nothing. *)
Definition quiet_os : list invocation -> invocation -> child :=
  fun _ _ => Exited 0 (Utf8 EmptyString).

(** The mapping of the end-to-end scenario. *)
Definition scenario_lines : dict :=
  [(Pathlib.of_string "a/b/file.py", [mkSlice 3 7 1])].

(** Two Python files, one range each. *)
Definition two_py_files : dict :=
  [(Pathlib.of_string "a.py", [mkSlice 1 2 1]);
   (Pathlib.of_string "b.py", [mkSlice 5 6 1])].

Definition git_rev_parse : invocation :=
  mkInvocation ["git"; "rev-parse"; "--show-toplevel"] None.

(** ** Shapes of header lines *)

(** The text of one path segment: no slash and no line feed. *)
Definition segment_char (c : ascii) : bool :=
  negb (c =? "/")%char && negb (c =? PyStr.LF)%char.

(** Segments written one after the other, each with its slash. *)
Fixpoint segments_text (segs : list string) : string :=
  match segs with
  | [] => EmptyString
  | s :: segs' => (s ++ "/" ++ segments_text segs')%string
  end.

(** Nothing, or something that starts with a blank. *)
Definition blank_start (s : string) : bool :=
  match s with
  | EmptyString => true
  | String c _ => PyStr.isspace c
  end.

(** ** Growth of the mapping *)

(** [d'] has the keys of [d] in the same order, then maybe more, and
    under every key of [d] the ranges of [d], then maybe more. *)
Definition extends (d d' : dict) : Prop :=
  (exists ks, map fst d' = map fst d ++ ks)
  /\ Forall (fun kv => exists l', In (fst kv, snd kv ++ l') d') d.

(** Line numbers are not negative and the step is 1. *)
Definition line_ok (sl : slice) : Prop := (0 <= start sl)%Z /\ step sl = 1%Z.

(** The arguments after the defaults of [parse_args]: a checker is on
    when it is named or its language is switched on; its name is the one
    given, or else the default. *)
Definition enabled_name (language : bool) (given : option string)
           (default : string) : option string :=
  if PyStr.truthy_opt given then given
  else if language then Some default else given.

(** ** The queries of [get_diff] *)

Definition git_branch (repo_root : string) : invocation :=
  mkInvocation ["git"; "branch"; "--show-current"] (Some repo_root).

Definition git_merge_base (repo_root ref current_branch : string)
  : invocation :=
  mkInvocation ["git"; "merge-base"; ref; current_branch] (Some repo_root).

Definition git_diff (repo_root base_commit : string) : invocation :=
  mkInvocation ["git"; "diff"; "-U0"; "--no-color"; "--relative"; base_commit]
               (Some repo_root).

(** A repository in which the reference is not known: the query for the
    common ancestor exits with 128. *)
Definition unknown_ref_os : list invocation -> invocation -> child :=
  fun _ i =>
    match argv i with
    | exe :: sub :: _ =>
        if (sub =? "rev-parse")%string then Exited 0 (Utf8 ("/repo" ++ nl))
        else if (sub =? "branch")%string then Exited 0 (Utf8 ("feature" ++ nl))
        else Exited 128 (Utf8 EmptyString)
    | _ => Exited 128 (Utf8 EmptyString)
    end.

(** A repository with a file that is not UTF-8: the answer to the query
    for the diff does not decode. *)
Definition latin1_os : list invocation -> invocation -> child :=
  fun _ i =>
    match argv i with
    | exe :: sub :: _ =>
        if (sub =? "rev-parse")%string then Exited 0 (Utf8 ("/repo" ++ nl))
        else if (sub =? "branch")%string then Exited 0 (Utf8 ("feature" ++ nl))
        else if (sub =? "merge-base")%string
             then Exited 0 (Utf8 ("abc123" ++ nl))
        else Exited 0 NotUtf8
    | _ => Exited 0 NotUtf8
    end.

(** A linter that is installed without the right to run it: git answers,
    any other child cannot be started. *)
Definition no_permission_os : list invocation -> invocation -> child :=
  fun _ i =>
    match argv i with
    | exe :: _ =>
        if (exe =? "git")%string then Exited 0 (Utf8 EmptyString)
        else NotStarted NoPermission
    | [] => NotStarted NoPermission
    end.


(** * Properties *)

(** ** The model on sample inputs

    The values below are those CPython gives for the same inputs. *)

Example splitlines_sample :
  PyStr.splitlines
    ("a" ++ nl ++ nl ++ "b" ++ String PyStr.CR nl ++ "c"
         ++ String PyStr.CR "d" ++ nl)
  = ["a"; ""; "b"; "c"; "d"].
Proof. reflexivity. Qed.

Example splitlines_empty :
  PyStr.splitlines "" = [] /\ PyStr.splitlines nl = [""].
Proof. split; reflexivity. Qed.

Example filename_regex_sample :
  map (fun '(n, line) =>
         option_map (fun m => Re.group m 2)
                    (Re.re_match (filename_regex n) line))
      [(1, "+++ b/a/b/file.py"); (0, "+++ b/x.py"); (3, "+++ b/x.py");
       (1, "+++ b c/x y.py"); (1, "+++ b/"); (1, "--- a/x.py")]
  = [Some (Some "a/b/file.py"); Some (Some "b/x.py"); None;
     Some (Some "x"); Some (Some ""); None].
Proof. reflexivity. Qed.

Example lineno_regex_sample :
  map (fun line =>
         option_map (fun m => (Re.group m 1, Re.group m 3))
                    (Re.re_match lineno_regex line))
      ["@@ -1,2 +3,4 @@"; "@@ -a,b +5 @@"; "@@ -1 +7,0 @@"; "@@ +x +12,x";
       "@@+1,"; "@@ -1 +x"; "+++ b/x.py"]
  = [Some (Some "3", Some "4"); Some (Some "5", None);
     Some (Some "7", Some "0"); Some (Some "12", None);
     Some (Some "1", None); None; None].
Proof. reflexivity. Qed.

Example path_sample :
  map (fun s => Pathlib.str (Pathlib.of_string s))
      ["a/b/file.py"; "a//b/./c/"; "./a"; "/a"; "//a"; "///a"; ""]
  = ["a/b/file.py"; "a/b/c"; "a"; "/a"; "//a"; "/a"; "."].
Proof. reflexivity. Qed.

Example suffix_sample :
  map (fun s => Pathlib.suffix (Pathlib.of_string s))
      ["x.py"; ".py"; "a.b.py"; "x.py."; "src/x.cpp"; "Makefile"; ""]
  = [".py"; ""; ".py"; ""; ".cpp"; ""; ""].
Proof. reflexivity. Qed.

(** Two files with hunks in turn: each hunk goes to the file of the
    header last read, and a hunk without lines on the new side is not
    recorded. *)
Example parse_diff_two_files :
  parse_diff
    ("+++ b/src/x.py" ++ nl ++ "@@ -1,2 +10,3 @@" ++ nl
     ++ "+++ b/y.cpp" ++ nl ++ "@@ -4 +7,0 @@" ++ nl ++ "@@ -9 +20 @@" ++ nl
     ++ "+++ b/src/x.py" ++ nl ++ "@@ -30,2 +40,2 @@ def f():" ++ nl) 1
  = Ok [(Pathlib.of_string "src/x.py", [mkSlice 10 13 1; mkSlice 40 42 1]);
        (Pathlib.of_string "y.cpp", [mkSlice 20 21 1])].
Proof. vm_compute. reflexivity. Qed.


(** ** Strings *)

Lemma take_drop_while (p : ascii -> bool) (s : string) :
  (take_while p s ++ drop_while p s)%string = s.
Proof.
  induction s as [|a s IH]; simpl; [reflexivity|].
  destruct (p a); simpl; [now rewrite IH | reflexivity].
Qed.

Lemma string_length_app (s t : string) :
  String.length (s ++ t) = String.length s + String.length t.
Proof. induction s as [|a s IH]; simpl; [reflexivity | now rewrite IH]. Qed.

Lemma substring_prefix (p r : string) :
  substring 0 (String.length p) (p ++ r) = p.
Proof.
  induction p as [|a p IH]; simpl.
  - destruct r; reflexivity.
  - now rewrite IH.
Qed.

Lemma consumed_app (p r : string) : Re.consumed (p ++ r) r = p.
Proof.
  unfold Re.consumed. rewrite string_length_app.
  replace (String.length p + String.length r - String.length r)
    with (String.length p) by lia.
  apply substring_prefix.
Qed.

Lemma consumed_drop_while (p : ascii -> bool) (s : string) :
  Re.consumed s (drop_while p s) = take_while p s.
Proof.
  rewrite <- (take_drop_while p s) at 1. apply consumed_app.
Qed.

Lemma string_app_assoc (s t u : string) :
  ((s ++ t) ++ u)%string = (s ++ (t ++ u))%string.
Proof. induction s as [|a s IH]; simpl; [reflexivity | now rewrite IH]. Qed.

Lemma consumed_app_drop_while (p : ascii -> bool) (pre s : string) :
  Re.consumed (pre ++ s) (drop_while p s) = (pre ++ take_while p s)%string.
Proof.
  rewrite <- (take_drop_while p s) at 1.
  rewrite <- string_app_assoc. apply consumed_app.
Qed.

Lemma consumed_cons_drop_while (p : ascii -> bool) (a : ascii) (s : string) :
  Re.consumed (String a s) (drop_while p s) = String a (take_while p s).
Proof. apply (consumed_app_drop_while p (String a EmptyString)). Qed.

(** ** The matcher on the shapes the two patterns are made of *)

Lemma first_success {A : Type} (x : option A) (y : option A) :
  x <> None -> match x with Some m => Some m | None => y end = x.
Proof. destruct x; congruence. Qed.

Lemma run_Str (p : string) :
  forall s g kont,
    Re.run (Re.Str p) s g kont =
    match strip_prefix p s with Some r => kont r g | None => None end.
Proof.
  induction p as [|c p IH]; intros s g kont; simpl; [reflexivity|].
  destruct s as [|a s]; [reflexivity|].
  destruct (a =? c)%char; [apply IH | reflexivity].
Qed.

(** A greedy run whose continuation cannot fail takes all it can. *)
Lemma star_greedy (k : Re.cls) (kont : Re.cont) :
  (forall s g, kont s g <> None) ->
  forall s g, Re.star k true kont s g = kont (drop_while (Re.cls_test k) s) g.
Proof.
  intros Hk. induction s as [|a s IH]; intros g; simpl; [reflexivity|].
  destruct (Re.cls_test k a); [|reflexivity].
  rewrite IH. apply first_success, Hk.
Qed.

Lemma skip_segments_S (n : nat) :
  forall s, skip_segments n s = None -> skip_segments (S n) s = None.
Proof.
  induction n as [|n IHn]; intros s; [destruct s; discriminate|].
  induction s as [|a s IHs]; [reflexivity|].
  intros H. cbn [skip_segments] in H |- *.
  destruct (a =? "/")%char.
  - now apply IHn.
  - destruct (a =? PyStr.LF)%char; [reflexivity | now apply IHs].
Qed.

Lemma times_S_segment (n : nat) (kont : Re.cont) (s : string) (g : Re.groups) :
  Re.times (Re.run segment) (S n) kont s g =
  Re.star Re.Dot false (to_slash s (Re.times (Re.run segment) n kont)) s g.
Proof. reflexivity. Qed.

(** The lazy run of a segment, when what follows the slash behaves like
    [skip_segments n]. *)
Lemma star_to_slash (n : nat) (kont after : Re.cont) :
  (forall s g, kont s g <> None) ->
  (forall s g,
      match skip_segments n s with
      | Some s' => exists g', after s g = kont s' g'
      | None => after s g = None
      end) ->
  forall s0 t g,
    match skip_segments (S n) t with
    | Some s' =>
        exists g', Re.star Re.Dot false (to_slash s0 after) t g = kont s' g'
    | None => Re.star Re.Dot false (to_slash s0 after) t g = None
    end.
Proof.
  intros Hk Hafter s0. induction t as [|a t IHt]; intros g; [reflexivity|].
  cbn [skip_segments Re.star Re.cls_test to_slash].
  destruct (a =? "/")%char eqn:Eslash.
  - apply Ascii.eqb_eq in Eslash. subst a.
    change (negb ("/" =? PyStr.LF)%char) with true. cbv iota.
    specialize (Hafter t (Re.set_group 1 (Re.consumed s0 t) g)).
    destruct (skip_segments n t) as [s'|] eqn:Eskip.
    + destruct Hafter as [g' Hg']. exists g'.
      rewrite Hg'. apply first_success, Hk.
    + rewrite Hafter. specialize (IHt g).
      now rewrite (skip_segments_S n t Eskip) in IHt.
  - destruct (a =? PyStr.LF)%char; cbn [negb]; [reflexivity | apply IHt].
Qed.

Lemma times_segment (kont : Re.cont) :
  (forall s g, kont s g <> None) ->
  forall n s g,
    match skip_segments n s with
    | Some s' => exists g', Re.times (Re.run segment) n kont s g = kont s' g'
    | None => Re.times (Re.run segment) n kont s g = None
    end.
Proof.
  intros Hk. induction n as [|n IHn]; intros s g.
  - destruct s; simpl; now exists g.
  - pose proof (star_to_slash n kont _ Hk IHn s s g) as H.
    destruct (skip_segments (S n) s) as [s'|].
    + destruct H as [g' H]. exists g'. now rewrite times_S_segment.
    + now rewrite times_S_segment.
Qed.

Lemma filename_regex_match (n : nat) (line : string) :
  match header_path n line with
  | Some p =>
      exists g,
        Re.re_match (filename_regex n) line = Some (Re.set_group 2 p g)
  | None => Re.re_match (filename_regex n) line = None
  end.
Proof.
  unfold header_path, Re.re_match, filename_regex.
  change (Re.run (Re.Cat (Re.Str "+++ ") ?x) line [] ?k)
    with (Re.run (Re.Str "+++ ") line [] (fun s' g' => Re.run x s' g' k)).
  rewrite run_Str.
  destruct (strip_prefix "+++ " line) as [r|]; [|reflexivity].
  set (K := fun (s : string) (g : Re.groups) =>
              Re.star Re.NonSpace true
                (fun s' g' => Some (Re.set_group 2 (Re.consumed s s') g')) s g).
  assert (HK : forall s g,
             K s g =
             Some (Re.set_group 2 (take_while (Re.cls_test Re.NonSpace) s) g)).
  { intros s g. unfold K. rewrite star_greedy by discriminate.
    now rewrite consumed_drop_while. }
  assert (HK' : forall s g, K s g <> None).
  { intros s g. rewrite HK. discriminate. }
  pose proof (times_segment K HK' n r []) as H.
  destruct (skip_segments n r) as [r'|].
  - destruct H as [g H]. exists g. rewrite <- HK, <- H. reflexivity.
  - exact H.
Qed.

Lemma count_group (s : string) (g : Re.groups) :
  Re.run
    (Re.Maybe
       (Re.Group 2
          (Re.Cat (Re.Char (Re.Lit ",")) (Re.Group 3 (Re.Plus Re.Digit)))))
    s g final =
  match s with
  | String c (String e r) =>
      if (c =? ",")%char && PyStr.isdecimal e then
        let es := take_while PyStr.isdecimal (String e r) in
        Some ((2%nat, String c es) :: (3%nat, es) :: g)
      else Some g
  | _ => Some g
  end.
Proof.
  cbn [Re.run Re.Plus Re.cls_test].
  destruct s as [|c [|e r]]; [reflexivity| |].
  - destruct (c =? ",")%char; reflexivity.
  - destruct (c =? ",")%char; [|reflexivity].
    cbn [andb take_while]. destruct (PyStr.isdecimal e) eqn:Ee; [|reflexivity].
    rewrite star_greedy by discriminate.
    unfold final, Re.set_group.
    change (Re.cls_test Re.Digit) with PyStr.isdecimal.
    rewrite consumed_cons_drop_while.
    pose proof (consumed_app_drop_while PyStr.isdecimal
                  (String c (String e EmptyString)) r) as H.
    cbn [append] in H. now rewrite H.
Qed.

Lemma new_side_match (s : string) :
  Re.run new_side s [] final = hunk_groups s.
Proof.
  unfold new_side.
  change (Re.run (Re.Cat ?a ?b) s [] final)
    with (Re.run a s [] (fun s' g' => Re.run b s' g' final)).
  set (K := fun (s' : string) (g' : Re.groups) => Re.run _ s' g' final).
  assert (HK : forall s' g', K s' g' <> None).
  { intros s' g'. unfold K. rewrite count_group.
    destruct s' as [|c [|e r]]; try discriminate.
    destruct ((c =? ",")%char && PyStr.isdecimal e); discriminate. }
  cbn [Re.run Re.Plus Re.cls_test]. unfold hunk_groups.
  destruct s as [|d s1]; [reflexivity|].
  destruct (PyStr.isdecimal d) eqn:Ed; [|reflexivity].
  rewrite star_greedy by (intros; apply HK).
  change (Re.cls_test Re.Digit) with PyStr.isdecimal.
  rewrite consumed_cons_drop_while.
  cbn [take_while drop_while]. rewrite Ed.
  unfold K. rewrite count_group. unfold Re.set_group.
  destruct (drop_while PyStr.isdecimal s1) as [|c [|e r]]; try reflexivity.
Qed.

Lemma lazy_to_plus (t : string) :
  Re.star Re.Dot false plus_then t [] = scan_plus t.
Proof.
  induction t as [|a t IHt]; [reflexivity|].
  cbn [Re.star scan_plus Re.cls_test plus_then].
  rewrite IHt, new_side_match.
  destruct (a =? PyStr.LF)%char eqn:Elf; cbn [negb]; [|reflexivity].
  apply Ascii.eqb_eq in Elf. subst a. reflexivity.
Qed.

Lemma lineno_regex_match (line : string) :
  Re.re_match lineno_regex line = hunk_header line.
Proof.
  unfold hunk_header, Re.re_match, lineno_regex.
  change (Re.run (Re.Cat (Re.Str "@@") ?x) line [] ?k)
    with (Re.run (Re.Str "@@") line [] (fun s' g' => Re.run x s' g' k)).
  rewrite run_Str.
  destruct (strip_prefix "@@" line) as [r|]; [|reflexivity].
  apply (lazy_to_plus r).
Qed.

(** ** Digits and [int] *)

Lemma isdecimal_value (c : ascii) :
  PyStr.isdecimal c = true -> (0 <= PyStr.digit_value c <= 9)%Z.
Proof.
  unfold PyStr.isdecimal, PyStr.digit_value. intros H.
  apply andb_true_iff in H. destruct H as [H1 H2].
  apply Nat.leb_le in H1, H2. lia.
Qed.

Lemma all_chars_take_while (p : ascii -> bool) (s : string) :
  all_chars p (take_while p s) = true.
Proof.
  induction s as [|a s IH]; simpl; [reflexivity|].
  destruct (p a) eqn:E; simpl; [now rewrite E | reflexivity].
Qed.

Lemma int_digits_all (s : string) :
  all_chars PyStr.isdecimal s = true ->
  forall acc, (0 <= acc)%Z ->
    exists z, PyStr.int_digits acc s = Some z /\ (0 <= z)%Z.
Proof.
  induction s as [|c s IH]; cbn [all_chars PyStr.int_digits];
    intros H acc Hacc.
  - now exists acc.
  - apply andb_true_iff in H. destruct H as [Hc Hs]. rewrite Hc.
    apply IH; [exact Hs|]. pose proof (isdecimal_value c Hc). lia.
Qed.

(** On a string of digits [int] gives a number that is not negative,
    unless the string is longer than the limit. *)
Lemma int_digits_ok (s : string) :
  digits s ->
  exists z,
    (0 <= z)%Z
    /\ PyStr.int s =
       if (String.length s <=? PyStr.int_max_str_digits)%nat
       then Ok z else Raise ValueError.
Proof.
  intros [Hne Hall]. unfold PyStr.int.
  destruct (int_digits_all s Hall 0%Z) as [z [Hz Hpos]]; [lia|].
  destruct s; [congruence|]. rewrite Hz. now exists z.
Qed.


Lemma int_long (s : string) :
  digits s -> PyStr.int_max_str_digits < String.length s ->
  PyStr.int s = Raise ValueError.
Proof.
  intros Hs Hlen. destruct (int_digits_ok s Hs) as [z [Hz H]].
  apply Nat.leb_gt in Hlen. now rewrite Hlen in H.
Qed.

Lemma digits_truthy (s : string) : digits s -> PyStr.truthy s = true.
Proof. intros [Hne _]. destruct s; [congruence | reflexivity]. Qed.

Lemma digits_take_while (d : ascii) (s : string) :
  PyStr.isdecimal d = true ->
  digits (String d (take_while PyStr.isdecimal s)).
Proof.
  intros Hd. split; [discriminate|]. simpl.
  now rewrite Hd, all_chars_take_while.
Qed.

(** ** [int] and [str] of a number *)

Lemma int_digits_cons (acc : Z) (c : ascii) (rest : string) :
  PyStr.isdecimal c = true ->
  PyStr.int_digits acc (String c rest)
  = PyStr.int_digits (10 * acc + PyStr.digit_value c) rest.
Proof. intros H. cbn [PyStr.int_digits]. now rewrite H. Qed.

Lemma int_digits_uint_acc (d : Decimal.uint) :
  forall a : positive,
    PyStr.int_digits (Z.pos a) (NilEmpty.string_of_uint d)
    = Some (Z.pos (Pos.of_uint_acc d a)).
Proof.
  induction d as [|d IH|d IH|d IH|d IH|d IH|d IH|d IH|d IH|d IH|d IH];
    intros a; cbn [NilEmpty.string_of_uint Pos.of_uint_acc];
    [reflexivity|..];
    rewrite int_digits_cons by reflexivity; rewrite <- IH; f_equal;
    match goal with
    | |- context [PyStr.digit_value ?c] =>
        let v := eval vm_compute in (PyStr.digit_value c) in
        change (PyStr.digit_value c) with v
    end; lia.
Qed.

Lemma int_digits_uint (d : Decimal.uint) :
  PyStr.int_digits 0 (NilEmpty.string_of_uint d)
  = Some (Z.of_N (Pos.of_uint d)).
Proof.
  induction d as [|d IH|d IH|d IH|d IH|d IH|d IH|d IH|d IH|d IH|d IH];
    cbn [NilEmpty.string_of_uint Pos.of_uint]; [reflexivity|..];
    rewrite int_digits_cons by reflexivity;
    [exact IH|..]; cbn [Z.of_N]; rewrite <- int_digits_uint_acc; f_equal.
Qed.

Lemma all_chars_uint (d : Decimal.uint) :
  all_chars PyStr.isdecimal (NilEmpty.string_of_uint d) = true.
Proof.
  induction d as [|d IH|d IH|d IH|d IH|d IH|d IH|d IH|d IH|d IH|d IH];
    cbn [NilEmpty.string_of_uint all_chars]; [reflexivity|..];
    exact IH.
Qed.

Lemma str_of_int_pos (p : positive) :
  PyStr.str_of_int (Z.pos p) = NilEmpty.string_of_uint (Pos.to_uint p).
Proof.
  unfold PyStr.str_of_int. cbn [Z.to_int NilZero.string_of_int].
  pose proof (Unsigned.to_uint_nonnil p) as H.
  destruct (Pos.to_uint p); [congruence|..]; reflexivity.
Qed.

(** [str] of a number that is not negative is a string of digits. *)
Lemma str_of_int_digits (z : Z) : (0 <= z)%Z -> digits (PyStr.str_of_int z).
Proof.
  intros Hz. destruct z as [|p|p]; [split; [discriminate|reflexivity]| |lia].
  rewrite str_of_int_pos. split; [|apply all_chars_uint].
  pose proof (Unsigned.to_uint_nonnil p) as H.
  destruct (Pos.to_uint p); [congruence|..]; discriminate.
Qed.

(** [int] reads back the number [str] wrote, within the limit. *)
Lemma int_str_of_int (z : Z) :
  (0 <= z)%Z ->
  String.length (PyStr.str_of_int z) <= PyStr.int_max_str_digits ->
  PyStr.int (PyStr.str_of_int z) = Ok z.
Proof.
  intros Hz Hlen. pose proof (str_of_int_digits z Hz) as [Hne _].
  unfold PyStr.int. apply Nat.leb_le in Hlen. rewrite Hlen.
  assert (H : PyStr.int_digits 0 (PyStr.str_of_int z) = Some z).
  { destruct z as [|p|p]; [reflexivity| |lia].
    rewrite str_of_int_pos, int_digits_uint.
    now rewrite DecimalPos.Unsigned.of_to. }
  rewrite H. destruct (PyStr.str_of_int z); [congruence | reflexivity].
Qed.

(** ** What the hunk pattern captures *)

Lemma hunk_groups_shape (s : string) (m : Re.groups) :
  hunk_groups s = Some m -> hunk_shape m.
Proof.
  unfold hunk_groups. destruct s as [|d s]; [discriminate|].
  destruct (PyStr.isdecimal d) eqn:Ed; [|discriminate].
  cbn [take_while drop_while]. rewrite Ed.
  assert (H1 : hunk_shape [(1%nat, String d (take_while PyStr.isdecimal s))]).
  { split; [|now left]. eexists. split; [reflexivity|].
    now apply digits_take_while. }
  destruct (drop_while PyStr.isdecimal s) as [|c [|e r]];
    try (intros H; injection H as <-; exact H1).
  destruct ((c =? ",")%char && PyStr.isdecimal e) eqn:Ece;
    [|intros H; injection H as <-; exact H1].
  apply andb_true_iff in Ece. destruct Ece as [_ Ee].
  intros H; injection H as <-. cbn [take_while]. rewrite Ee. split.
  - eexists. split; [reflexivity|]. now apply digits_take_while.
  - right. eexists. split; [reflexivity|]. now apply digits_take_while.
Qed.

Lemma scan_plus_shape (s : string) (m : Re.groups) :
  scan_plus s = Some m -> hunk_shape m.
Proof.
  induction s as [|a s IH]; [discriminate|]. cbn [scan_plus].
  destruct (if (a =? "+")%char then hunk_groups s else None) as [m'|] eqn:E.
  - intros H; injection H as <-.
    destruct (a =? "+")%char; [|discriminate].
    now apply (hunk_groups_shape s).
  - destruct (a =? PyStr.LF)%char; [discriminate | exact IH].
Qed.

Lemma lineno_regex_shape (line : string) (m : Re.groups) :
  Re.re_match lineno_regex line = Some m -> hunk_shape m.
Proof.
  rewrite lineno_regex_match. unfold hunk_header.
  destruct (strip_prefix "@@" line) as [r|]; [|discriminate].
  apply scan_plus_shape.
Qed.

(** ** Runs of digits *)

Lemma take_while_longest (s : string) :
  String.length (take_while PyStr.isdecimal s) <= longest_digits s.
Proof. destruct s; cbn [longest_digits]; [apply le_n | apply Nat.le_max_l]. Qed.

Lemma longest_digits_tail (a : ascii) (s : string) :
  longest_digits s <= longest_digits (String a s).
Proof. cbn [longest_digits]. apply Nat.le_max_r. Qed.

Lemma longest_digits_suffix (pre s : string) :
  longest_digits s <= longest_digits (pre ++ s).
Proof.
  induction pre as [|a pre IH]; [apply le_n|]. cbn [append].
  etransitivity; [exact IH | apply longest_digits_tail].
Qed.

Lemma take_while_prefix_le (p : ascii -> bool) (s t : string) :
  String.length (take_while p s) <= String.length (take_while p (s ++ t)).
Proof.
  induction s as [|a s IH]; cbn [append take_while String.length]; [lia|].
  destruct (p a); cbn [String.length]; lia.
Qed.

Lemma longest_digits_prefix (s t : string) :
  longest_digits s <= longest_digits (s ++ t).
Proof.
  induction s as [|a s IH]; [cbn [longest_digits]; lia|].
  change (String a s ++ t)%string with (String a (s ++ t)).
  cbn [longest_digits].
  pose proof (take_while_prefix_le PyStr.isdecimal (String a s) t) as H.
  change (String a s ++ t)%string with (String a (s ++ t)) in H. lia.
Qed.

Lemma strip_prefix_some (p : string) :
  forall s r, strip_prefix p s = Some r -> s = (p ++ r)%string.
Proof.
  induction p as [|c p IH]; intros s r; cbn [strip_prefix append].
  - now intros [= ->].
  - destruct s as [|a s]; [discriminate|].
    destruct (Ascii.eqb_spec a c) as [->|]; [|discriminate].
    intros H. now rewrite (IH s r H).
Qed.

Lemma hunk_groups_short (s : string) (m : Re.groups) :
  hunk_groups s = Some m ->
  forall i g, Re.group m i = Some g -> i = 1 \/ i = 3 ->
              String.length g <= longest_digits s.
Proof.
  unfold hunk_groups. destruct s as [|d s]; [discriminate|].
  destruct (PyStr.isdecimal d) eqn:Ed; [|discriminate].
  assert (H1 : forall i g,
             Re.group [(1%nat, take_while PyStr.isdecimal (String d s))] i
             = Some g ->
             String.length g <= longest_digits (String d s)).
  { intros i g. cbn [Re.group]. destruct (i =? 1)%nat; [|discriminate].
    intros [= <-]. exact (take_while_longest (String d s)). }
  destruct (drop_while PyStr.isdecimal (String d s)) as [|c [|e r]] eqn:Edrop;
    try (intros [= <-] i g Hg _; exact (H1 i g Hg)).
  destruct ((c =? ",")%char && PyStr.isdecimal e);
    [|intros [= <-] i g Hg _; exact (H1 i g Hg)].
  intros [= <-] i g Hg Hi. cbn [Re.group] in Hg.
  destruct Hi as [-> | ->]; cbn [Nat.eqb] in Hg; injection Hg as <-.
  - exact (take_while_longest (String d s)).
  - etransitivity; [exact (take_while_longest (String e r))|].
    rewrite <- (take_drop_while PyStr.isdecimal (String d s)) at 1.
    rewrite Edrop.
    change (String c (String e r)) with (String c "" ++ String e r)%string.
    rewrite <- string_app_assoc. apply longest_digits_suffix.
Qed.

Lemma scan_plus_short (s : string) (m : Re.groups) :
  scan_plus s = Some m ->
  forall i g, Re.group m i = Some g -> i = 1 \/ i = 3 ->
              String.length g <= longest_digits s.
Proof.
  induction s as [|a s IH]; [discriminate|]. cbn [scan_plus].
  destruct (if (a =? "+")%char then hunk_groups s else None) as [m'|] eqn:E.
  - intros [= <-] i g Hg Hi. destruct (a =? "+")%char; [|discriminate].
    etransitivity; [exact (hunk_groups_short s m' E i g Hg Hi)|].
    apply longest_digits_tail.
  - destruct (a =? PyStr.LF)%char; [discriminate|].
    intros H i g Hg Hi. etransitivity; [exact (IH H i g Hg Hi)|].
    apply longest_digits_tail.
Qed.

(** A line without a long run of digits has no long number. *)
Lemma short_numbers_longest (line : string) :
  longest_digits line <= PyStr.int_max_str_digits -> short_numbers line.
Proof.
  intros Hlen m i s Hm Hs Hi. rewrite lineno_regex_match in Hm.
  unfold hunk_header in Hm.
  destruct (strip_prefix "@@" line) as [r|] eqn:Er; [|discriminate].
  apply strip_prefix_some in Er. subst line.
  etransitivity; [exact (scan_plus_short r m Hm i s Hs Hi)|].
  etransitivity; [apply longest_digits_suffix | exact Hlen].
Qed.

Lemma splitlines_nil (s : string) : PyStr.splitlines s = [] -> s = EmptyString.
Proof.
  destruct s as [|c rest]; [reflexivity|]. cbn [PyStr.splitlines].
  destruct (PyStr.islinebreak c).
  - destruct rest as [|d rest']; [discriminate|].
    destruct ((c =? PyStr.CR)%char && (d =? PyStr.LF)%char); discriminate.
  - destruct (PyStr.splitlines rest); discriminate.
Qed.

Lemma splitlines_first (s : string) :
  forall l ls, PyStr.splitlines s = l :: ls -> exists t, s = (l ++ t)%string.
Proof.
  induction s as [|c rest IH]; intros l ls; [discriminate|].
  cbn [PyStr.splitlines]. destruct (PyStr.islinebreak c).
  - intros H. exists (String c rest).
    destruct rest as [|d rest']; [now injection H as <- _|].
    destruct ((c =? PyStr.CR)%char && (d =? PyStr.LF)%char);
      now injection H as <- _.
  - destruct (PyStr.splitlines rest) as [|l' ls'] eqn:E.
    + intros [= <- _]. apply splitlines_nil in E. subst rest.
      now exists EmptyString.
    + intros [= <- _]. destruct (IH l' ls' eq_refl) as [t ->].
      now exists t.
Qed.

(** No line has a longer run of digits than the text it is a line of. *)
Lemma splitlines_longest (s : string) :
  Forall (fun l => longest_digits l <= longest_digits s) (PyStr.splitlines s).
Proof.
  assert (H : forall n s, String.length s <= n ->
                Forall (fun l => longest_digits l <= longest_digits s)
                       (PyStr.splitlines s)).
  { clear s. induction n as [|n IH]; intros [|c rest] Hlen;
      try (constructor); cbn [String.length] in Hlen; [lia|].
    assert (Htail : forall t,
               longest_digits t <= longest_digits rest ->
               Forall (fun l => longest_digits l <= longest_digits t)
                      (PyStr.splitlines t) ->
               Forall (fun l => longest_digits l
                                <= longest_digits (String c rest))
                      (PyStr.splitlines t)).
    { intros t Ht. apply Forall_impl. intros l Hl.
      pose proof (longest_digits_tail c rest). lia. }
    cbn [PyStr.splitlines]. destruct (PyStr.islinebreak c).
    - destruct rest as [|d rest'].
      + constructor; [cbn [longest_digits]; lia | constructor].
      + cbn [String.length] in Hlen.
        destruct ((c =? PyStr.CR)%char && (d =? PyStr.LF)%char);
          (constructor; [cbn [longest_digits]; lia|]).
        * apply Htail; [apply longest_digits_tail | apply IH; lia].
        * apply Htail; [apply le_n | apply IH; cbn [String.length]; lia].
    - pose proof (IH rest ltac:(lia)) as Hrest.
      destruct (PyStr.splitlines rest) as [|l ls] eqn:E.
      + apply splitlines_nil in E. subst rest.
        constructor; [apply le_n | constructor].
      + destruct (splitlines_first rest l ls E) as [t Ht].
        constructor.
        * rewrite Ht. apply (longest_digits_prefix (String c l) t).
        * apply Forall_inv_tail in Hrest.
          revert Hrest. apply Forall_impl. intros l0 Hl0.
          pose proof (longest_digits_tail c rest). lia. }
  exact (H (String.length s) s (le_n _)).
Qed.

(** ** One iteration of the loop *)

Lemma loop_body_eq (n : nat) (cur : option Path) (d : dict) (line : string) :
  loop_body n (cur, d) line = record_hunk (next_file n cur line) d line.
Proof.
  unfold next_file.
  change (loop_body n (cur, d) line)
    with (rbind
            match Re.re_match (filename_regex n) line with
            | Some m => rbind (Path_of_group (Re.group m 2))
                          (fun p => Ok (Some p))
            | None => Ok cur
            end
            (fun cf => record_hunk cf d line)).
  pose proof (filename_regex_match n line) as H.
  destruct (header_path n line) as [p|].
  - destruct H as [g ->]. reflexivity.
  - rewrite H. reflexivity.
Qed.

(** What an iteration can do: raise [ValueError] on a number that is too
    long, leave the mapping as it is, or add one range that is not empty
    to the file under the cursor. *)
Lemma record_hunk_step (cf : option Path) (d : dict) (line : string) :
  (record_hunk cf d line = Raise ValueError /\ ~ short_numbers line)
  \/ exists d',
      record_hunk cf d line = Ok (cf, d')
      /\ (d' = d
          \/ exists f a c,
              cf = Some f /\ (0 <= a)%Z /\ (0 < c)%Z
              /\ d' = setdefault_append d f (mkSlice a (a + c) 1)).
Proof.
  unfold record_hunk. destruct cf as [f|]; [|right; exists d; auto].
  destruct (Re.re_match lineno_regex line) as [m|] eqn:Em;
    [|right; exists d; auto].
  destruct (lineno_regex_shape line m Em) as [[ds [H1 Hds]] H3].
  assert (Hlong : forall i s,
             Re.group m i = Some s -> i = 1 \/ i = 3 ->
             (String.length s <=? PyStr.int_max_str_digits)%nat = false ->
             ~ short_numbers line).
  { intros i s Hs Hi Hlen Hshort. apply Nat.leb_gt in Hlen.
    pose proof (Hshort m i s Em Hs Hi). lia. }
  rewrite H1. cbn [int_of_group].
  destruct (int_digits_ok ds Hds) as [a [Ha ->]].
  destruct (String.length ds <=? PyStr.int_max_str_digits)%nat eqn:Eds;
    [|left; split; [reflexivity | exact (Hlong 1 ds H1 (or_introl eq_refl) Eds)]].
  cbn [rbind].
  destruct H3 as [H3 | [es [H3 Hes]]]; rewrite H3;
    cbn [PyStr.truthy_opt int_of_group].
  - right. cbn [rbind Z.eqb]. eexists. split; [reflexivity|].
    right. exists f, a, 1%Z. repeat split; auto; lia.
  - rewrite (digits_truthy es Hes).
    destruct (int_digits_ok es Hes) as [c [Hc ->]].
    destruct (String.length es <=? PyStr.int_max_str_digits)%nat eqn:Ees;
      [|left; split;
        [reflexivity | exact (Hlong 3 es H3 (or_intror eq_refl) Ees)]].
    right. cbn [rbind].
    destruct (c =? 0)%Z eqn:Ec; [exists d; auto|].
    apply Z.eqb_neq in Ec. eexists. split; [reflexivity|].
    right. exists f, a, c. repeat split; auto; lia.
Qed.

Lemma loop_body_step (n : nat) (cur : option Path) (d : dict) (line : string) :
  (loop_body n (cur, d) line = Raise ValueError /\ ~ short_numbers line)
  \/ exists d',
      loop_body n (cur, d) line = Ok (next_file n cur line, d')
      /\ (d' = d
          \/ exists f a c,
              next_file n cur line = Some f /\ (0 <= a)%Z /\ (0 < c)%Z
              /\ d' = setdefault_append d f (mkSlice a (a + c) 1)).
Proof. rewrite loop_body_eq. apply record_hunk_step. Qed.

Lemma setdefault_append_ok (d : dict) (f : Path) (sl : slice) :
  Forall entry_ok d -> range_ok sl ->
  Forall entry_ok (setdefault_append d f sl).
Proof.
  intros Hd Hsl. induction Hd as [|[k l] d' [Hne Hl] Hd' IH]; simpl.
  - repeat constructor; simpl; [discriminate | exact Hsl].
  - destruct (Pathlib.eqb f k).
    + constructor; [|exact Hd']. split; simpl in *.
      * destruct l; discriminate.
      * apply Forall_app. split; [exact Hl | now constructor].
    + constructor; [now split | exact IH].
Qed.

(** ** The loop as a whole *)

(** A property of the mapping that adding a range keeps holds of what
    the loop returns. *)
Lemma for_lines_invariant (P : dict -> Prop) :
  (forall d f a c,
      P d -> (0 <= a)%Z -> (0 < c)%Z ->
      P (setdefault_append d f (mkSlice a (a + c) 1))) ->
  forall n ls (cur : option Path) (d : dict) (cur' : option Path) (d' : dict),
    P d -> for_lines n (cur, d) ls = Ok (cur', d') -> P d'.
Proof.
  intros Hstep n. induction ls as [|line ls IH]; intros cur d cur' d' Hd;
    cbn [for_lines].
  - now intros [= _ <-].
  - destruct (loop_body_step n cur d line) as [[-> _] | [d1 [-> Hd1]]];
      [discriminate|].
    cbn [rbind]. apply IH.
    destruct Hd1 as [-> | [f [a [c [_ [Ha [Hc ->]]]]]]]; auto.
Qed.

(** The loop returns when no line holds a number that is too long. *)
Lemma for_lines_returns (n : nat) (ls : list string) :
  Forall short_numbers ls ->
  forall (cur : option Path) (d : dict),
    exists cur' d', for_lines n (cur, d) ls = Ok (cur', d').
Proof.
  induction 1 as [|line ls Hline _ IH]; intros cur d; cbn [for_lines].
  - now exists cur, d.
  - destruct (loop_body_step n cur d line) as [[_ Hno] | [d1 [-> _]]];
      [contradiction|].
    cbn [rbind]. apply IH.
Qed.

(** The only exception of the loop is the [ValueError] of [int]. *)
Lemma for_lines_raises (n : nat) (ls : list string) :
  forall (cur : option Path) (d : dict) (e : exn),
    for_lines n (cur, d) ls = Raise e -> e = ValueError.
Proof.
  induction ls as [|line ls IH]; intros cur d e; cbn [for_lines];
    [discriminate|].
  destruct (loop_body_step n cur d line) as [[-> _] | [d1 [-> _]]].
  - now intros [= <-].
  - cbn [rbind]. apply IH.
Qed.

(** ** [parse_diff] as a whole *)

Lemma compile_ok (n : nat) :
  (N.of_nat n < Re.MAXREPEAT)%N ->
  compile_filename_regex n = Ok (filename_regex n).
Proof.
  intros H. unfold compile_filename_regex.
  apply N.leb_gt in H. now rewrite H.
Qed.

Lemma parse_diff_overflow (diff : string) (n : nat) :
  (Re.MAXREPEAT <= N.of_nat n)%N -> parse_diff diff n = Raise OverflowError.
Proof.
  intros H. unfold parse_diff, compile_filename_regex.
  apply N.leb_le in H. now rewrite H.
Qed.

Lemma parse_diff_loop (diff : string) (n : nat) :
  (N.of_nat n < Re.MAXREPEAT)%N ->
  parse_diff diff n =
  rbind (for_lines n (None, []) (PyStr.splitlines diff))
        (fun st => Ok (snd st)).
Proof. intros H. unfold parse_diff. now rewrite (compile_ok n H). Qed.

(** What [parse_diff] returns was returned by the loop. *)
Lemma parse_diff_inv (diff : string) (n : nat) (d : dict) :
  parse_diff diff n = Ok d ->
  (N.of_nat n < Re.MAXREPEAT)%N
  /\ exists cur, for_lines n (None, []) (PyStr.splitlines diff) = Ok (cur, d).
Proof.
  intros H. destruct (N.lt_ge_cases (N.of_nat n) Re.MAXREPEAT) as [Hn|Hn].
  - split; [exact Hn|]. rewrite (parse_diff_loop diff n Hn) in H.
    destruct (for_lines n (None, []) (PyStr.splitlines diff))
      as [[cur d']|e]; [|discriminate].
    injection H as <-. now exists cur.
  - rewrite (parse_diff_overflow diff n Hn) in H. discriminate.
Qed.

Lemma parse_diff_invariant (P : dict -> Prop) :
  P [] ->
  (forall d f a c,
      P d -> (0 <= a)%Z -> (0 < c)%Z ->
      P (setdefault_append d f (mkSlice a (a + c) 1))) ->
  forall diff n d, parse_diff diff n = Ok d -> P d.
Proof.
  intros H0 Hstep diff n d H.
  destruct (parse_diff_inv diff n d H) as [_ [cur Hcur]].
  exact (for_lines_invariant P Hstep n _ None [] cur d H0 Hcur).
Qed.

(** [parse_diff] returns for a count the compiler of patterns accepts and
    a diff without a run of digits longer than what [int] converts. *)
Lemma parse_diff_returns (diff : string) (n : nat) :
  (N.of_nat n < Re.MAXREPEAT)%N ->
  longest_digits diff <= PyStr.int_max_str_digits ->
  exists d, parse_diff diff n = Ok d.
Proof.
  intros Hn Hlen. rewrite (parse_diff_loop diff n Hn).
  assert (Hls : Forall short_numbers (PyStr.splitlines diff)).
  { pose proof (splitlines_longest diff) as H. revert H.
    apply Forall_impl. intros l Hl. apply short_numbers_longest. lia. }
  destruct (for_lines_returns n _ Hls None []) as [cur [d H]].
  exists d. exact (f_equal (fun r => rbind r (fun st => Ok (snd st))) H).
Qed.

(** The exceptions of [parse_diff]: that of the compiler of patterns and
    that of [int]. *)
Lemma parse_diff_raises (diff : string) (n : nat) (e : exn) :
  parse_diff diff n = Raise e ->
  (e = OverflowError /\ (Re.MAXREPEAT <= N.of_nat n)%N)
  \/ (e = ValueError /\ (N.of_nat n < Re.MAXREPEAT)%N
      /\ PyStr.int_max_str_digits < longest_digits diff).
Proof.
  intros H. destruct (N.lt_ge_cases (N.of_nat n) Re.MAXREPEAT) as [Hn|Hn].
  - right. rewrite (parse_diff_loop diff n Hn) in H.
    destruct (for_lines n (None, []) (PyStr.splitlines diff))
      as [[cur d']|e'] eqn:E; [discriminate|].
    injection H as <-. split; [exact (for_lines_raises n _ None [] e' E)|].
    split; [exact Hn|].
    destruct (Nat.le_gt_cases (longest_digits diff) PyStr.int_max_str_digits)
      as [Hle|Hgt]; [|exact Hgt].
    destruct (parse_diff_returns diff n Hn Hle) as [d Hd].
    rewrite (parse_diff_loop diff n Hn), E in Hd. discriminate.
  - left. rewrite (parse_diff_overflow diff n Hn) in H.
    injection H as <-. now split.
Qed.

(** ** Single lines *)

Lemma all_chars_app (p : ascii -> bool) (s t : string) :
  all_chars p (s ++ t) = all_chars p s && all_chars p t.
Proof.
  induction s as [|a s IH]; simpl; [reflexivity|].
  now rewrite IH, andb_assoc.
Qed.

Lemma all_chars_impl (p q : ascii -> bool) (s : string) :
  (forall c, p c = true -> q c = true) ->
  all_chars p s = true -> all_chars q s = true.
Proof.
  intros Hpq. induction s as [|a s IH]; cbn [all_chars]; [reflexivity|].
  intros H. apply andb_true_iff in H. destruct H as [Ha Hs].
  now rewrite (Hpq a Ha), (IH Hs).
Qed.

Lemma scan_plus_plain (pre s : string) :
  plain pre -> scan_plus (pre ++ s) = scan_plus s.
Proof.
  unfold plain. induction pre as [|a pre IH]; [reflexivity|].
  cbn [all_chars append scan_plus]. intros H.
  apply andb_true_iff in H. destruct H as [Ha Hpre].
  unfold plain_char in Ha. apply andb_true_iff in Ha. destruct Ha as [H1 H2].
  apply negb_true_iff in H1, H2. rewrite H1, H2. now apply IH.
Qed.

Lemma take_while_all (p : ascii -> bool) (s t : string) :
  all_chars p s = true -> take_while p (s ++ t) = (s ++ take_while p t)%string.
Proof.
  induction s as [|a s IH]; [reflexivity|]. cbn [all_chars append take_while].
  intros H. apply andb_true_iff in H. destruct H as [-> Hs]. now rewrite IH.
Qed.

Lemma drop_while_all (p : ascii -> bool) (s t : string) :
  all_chars p s = true -> drop_while p (s ++ t) = drop_while p t.
Proof.
  induction s as [|a s IH]; [reflexivity|]. cbn [all_chars append drop_while].
  intros H. apply andb_true_iff in H. destruct H as [-> Hs]. now apply IH.
Qed.

Lemma string_app_empty (s : string) : (s ++ "")%string = s.
Proof. induction s as [|a s IH]; simpl; [reflexivity | now rewrite IH]. Qed.


(** A number, a comma and a second number, followed by a character that
    is not a digit, is a start line and a count. *)
Lemma hunk_groups_count (ds es : string) (c : ascii) (t : string) :
  digits ds -> digits es -> PyStr.isdecimal c = false ->
  hunk_groups (ds ++ String "," (es ++ String c t)) =
  Some [(2%nat, String "," es); (3%nat, es); (1%nat, ds)].
Proof.
  intros [Hne Hall] [Hne' Hall'] Hc. unfold hunk_groups.
  rewrite (take_while_all _ ds _ Hall), (drop_while_all _ ds _ Hall).
  cbn [take_while drop_while].
  change (PyStr.isdecimal ",") with false. cbv iota. rewrite string_app_empty.
  destruct ds as [|d ds]; [congruence|]. cbn [append].
  cbn [all_chars] in Hall. apply andb_true_iff in Hall.
  destruct Hall as [-> _].
  destruct es as [|e es]; [congruence|]. cbn [append].
  pose proof Hall' as He. cbn [all_chars] in He.
  apply andb_true_iff in He. destruct He as [He Hes]. rewrite He.
  change ("," =? ",")%char with true. cbn [andb].
  rewrite (take_while_all _ es _ Hes).
  cbn [take_while]. rewrite Hc, string_app_empty. reflexivity.
Qed.

Lemma scan_plus_found (s : string) (m : Re.groups) :
  hunk_groups s = Some m -> scan_plus (String "+" s) = Some m.
Proof. intros H. cbn [scan_plus]. change ("+" =? "+")%char with true.
       cbv iota. now rewrite H. Qed.

Lemma hunk_header_at (s : string) : hunk_header ("@@" ++ s) = scan_plus s.
Proof. reflexivity. Qed.

Lemma header_path_at (n : nat) (s : string) : header_path n ("@@" ++ s) = None.
Proof. reflexivity. Qed.

Lemma skip_one_segment (m : nat) (s t : string) :
  all_chars segment_char s = true ->
  skip_segments (S m) (s ++ String "/" t) = skip_segments m t.
Proof.
  induction s as [|a s IH]; cbn [all_chars append]; intros H.
  - destruct m; reflexivity.
  - apply andb_true_iff in H. destruct H as [Ha Hs].
    unfold segment_char in Ha. apply andb_true_iff in Ha.
    destruct Ha as [H1 H2]. apply negb_true_iff in H1, H2.
    cbn [skip_segments]. rewrite H1, H2. now apply IH.
Qed.

Lemma skip_segments_text (segs : list string) (t : string) :
  Forall (fun s => all_chars segment_char s = true) segs ->
  skip_segments (length segs) (segments_text segs ++ t) = Some t.
Proof.
  induction 1 as [|s segs Hs _ IH]; cbn [length segments_text].
  - destruct t; reflexivity.
  - rewrite !string_app_assoc. cbn [append].
    now rewrite (skip_one_segment _ s _ Hs).
Qed.

Lemma take_while_blank_start (s : string) :
  blank_start s = true -> take_while (Re.cls_test Re.NonSpace) s = EmptyString.
Proof.
  destruct s as [|c s]; [reflexivity|]. cbn [blank_start take_while Re.cls_test].
  now intros ->.
Qed.

Lemma header_path_plus (n : nat) (s : string) :
  header_path n ("+++ " ++ s) =
  match skip_segments n s with
  | Some r => Some (take_while (Re.cls_test Re.NonSpace) r)
  | None => None
  end.
Proof. reflexivity. Qed.

Lemma hunk_header_plus (s : string) : hunk_header ("+++ " ++ s) = None.
Proof. reflexivity. Qed.

(** The step of the loop on a header of a new file. *)
Lemma header_line_step (segs : list string) (p rest : string)
      (cur : option Path) (d : dict) :
  Forall (fun s => all_chars segment_char s = true) segs ->
  all_chars (Re.cls_test Re.NonSpace) p = true ->
  blank_start rest = true ->
  loop_body (length segs) (cur, d)
            ("+++ " ++ segments_text segs ++ p ++ rest)
  = Ok (Some (Pathlib.of_string p), d).
Proof.
  intros Hsegs Hp Hrest. rewrite loop_body_eq. unfold next_file.
  rewrite header_path_plus, (skip_segments_text segs _ Hsegs).
  rewrite (take_while_all _ p _ Hp), (take_while_blank_start rest Hrest).
  rewrite string_app_empty. unfold record_hunk.
  now rewrite lineno_regex_match, hunk_header_plus.
Qed.

(** The same for a header that is its path and nothing else, with
    nothing to strip. *)
Lemma header_line_whole (p : string) (cur : option Path) (d : dict) :
  all_chars (Re.cls_test Re.NonSpace) p = true ->
  loop_body 0 (cur, d) ("+++ " ++ p) = Ok (Some (Pathlib.of_string p), d).
Proof.
  intros Hp.
  pose proof (header_line_step [] p EmptyString cur d (Forall_nil _) Hp
                eq_refl) as H.
  cbn [length segments_text] in H.
  change ("+++ " ++ "" ++ p ++ "")%string with ("+++ " ++ (p ++ ""))%string in H.
  now rewrite string_app_empty in H.
Qed.


(** The step of the loop on a hunk header with a count: both numbers are
    converted; a count of 0 adds nothing. *)
Lemma hunk_line_count (n : nat) (f : Path) (d : dict)
      (a b ds es rest : string) :
  plain a -> plain b -> digits ds -> digits es ->
  loop_body n (Some f, d)
    ("@@ -" ++ a ++ "," ++ b ++ " +" ++ ds ++ "," ++ es ++ " @@" ++ rest)
  = rbind (PyStr.int ds) (fun N =>
    rbind (PyStr.int es) (fun M =>
      Ok (Some f,
          if (M =? 0)%Z then d
          else setdefault_append d f (mkSlice N (N + M) 1)))).
Proof.
  intros Ha Hb Hds Hes.
  change ("@@ -" ++ a ++ "," ++ b ++ " +" ++ ds ++ "," ++ es
                 ++ " @@" ++ rest)%string
    with ("@@" ++ " -" ++ a ++ "," ++ b ++ " "
               ++ String "+"
                    (ds ++ String "," (es ++ String " " ("@@" ++ rest))))%string.
  rewrite loop_body_eq. unfold next_file. rewrite header_path_at.
  unfold record_hunk. rewrite lineno_regex_match, hunk_header_at.
  rewrite (scan_plus_plain " -" _ eq_refl), (scan_plus_plain a _ Ha).
  rewrite (scan_plus_plain "," _ eq_refl), (scan_plus_plain b _ Hb).
  rewrite (scan_plus_plain " " _ eq_refl).
  rewrite (scan_plus_found _ [(2%nat, String "," es); (3%nat, es);
                              (1%nat, ds)])
    by (now apply hunk_groups_count).
  cbn [Re.group Nat.eqb int_of_group PyStr.truthy_opt].
  rewrite (digits_truthy es Hes).
  destruct (PyStr.int ds) as [N|]; [|reflexivity]. cbn [rbind].
  destruct (PyStr.int es) as [M|]; [|reflexivity]. cbn [rbind].
  destruct (M =? 0)%Z; reflexivity.
Qed.

(** ** Lines of a text *)

Lemma linebreak_isspace (c : ascii) :
  PyStr.islinebreak c = true -> PyStr.isspace c = true.
Proof.
  unfold PyStr.islinebreak, PyStr.isspace. set (n := PyStr.ord c).
  rewrite !orb_true_iff, !andb_true_iff, !Nat.leb_le, !Nat.eqb_eq. lia.
Qed.

Lemma nonspace_inline (c : ascii) :
  Re.cls_test Re.NonSpace c = true -> inline_char c = true.
Proof.
  cbn [Re.cls_test]. unfold inline_char. intros H.
  apply negb_true_iff in H. apply negb_true_iff.
  destruct (PyStr.islinebreak c) eqn:E; [|reflexivity].
  now rewrite (linebreak_isspace c E) in H.
Qed.

Lemma decimal_inline (c : ascii) :
  PyStr.isdecimal c = true -> inline_char c = true.
Proof.
  unfold inline_char, PyStr.isdecimal, PyStr.islinebreak.
  set (n := PyStr.ord c). intros H. apply negb_true_iff.
  apply andb_true_iff in H. destruct H as [H1 H2]. apply Nat.leb_le in H1, H2.
  apply not_true_is_false.
  rewrite !orb_true_iff, !andb_true_iff, !Nat.leb_le, !Nat.eqb_eq. lia.
Qed.

Lemma old_side_inline (c : ascii) :
  old_side_char c = true -> inline_char c = true.
Proof. unfold old_side_char. intros H. now apply andb_true_iff in H. Qed.

Lemma old_side_plain (s : string) :
  all_chars old_side_char s = true -> plain s.
Proof.
  apply all_chars_impl. intros c. unfold old_side_char, plain_char.
  intros H. apply andb_true_iff in H. destruct H as [-> H2]. cbn [andb].
  apply negb_true_iff in H2. apply negb_true_iff.
  destruct (Ascii.eqb_spec c PyStr.LF) as [->|]; [discriminate | reflexivity].
Qed.

Lemma digits_inline (s : string) :
  digits s -> all_chars inline_char s = true.
Proof. intros [_ H]. revert H. apply all_chars_impl, decimal_inline. Qed.

(** A line and its line feed, in front of a text. *)
Lemma splitlines_line (l s : string) :
  all_chars inline_char l = true ->
  PyStr.splitlines (l ++ nl ++ s) = l :: PyStr.splitlines s.
Proof.
  induction l as [|c l IH]; cbn [all_chars append]; intros H.
  - unfold nl. cbn [append PyStr.splitlines].
    change (PyStr.islinebreak PyStr.LF) with true. cbv iota.
    destruct s as [|d s]; [reflexivity|].
    change (PyStr.LF =? PyStr.CR)%char with false. reflexivity.
  - apply andb_true_iff in H. destruct H as [Hc Hl].
    unfold inline_char in Hc. apply negb_true_iff in Hc.
    cbn [PyStr.splitlines]. rewrite Hc. now rewrite (IH Hl).
Qed.

Lemma splitlines_two (l1 l2 : string) :
  all_chars inline_char l1 = true -> all_chars inline_char l2 = true ->
  PyStr.splitlines (l1 ++ nl ++ l2 ++ nl) = [l1; l2].
Proof.
  intros H1 H2. rewrite (splitlines_line l1 _ H1).
  rewrite <- (string_app_empty nl) at 1.
  now rewrite (splitlines_line l2 _ H2).
Qed.

(** ** The mapping *)

Lemma for_lines_app (n : nat) (ls1 ls2 : list string) :
  forall st,
    for_lines n st (ls1 ++ ls2) =
    rbind (for_lines n st ls1) (fun st' => for_lines n st' ls2).
Proof.
  induction ls1 as [|l ls1 IH]; intros st; cbn [app for_lines rbind].
  - reflexivity.
  - destruct (loop_body n st l) as [st'|e]; cbn [rbind]; [apply IH|reflexivity].
Qed.

Lemma path_eqb_eq (p q : Path) : Pathlib.eqb p q = true <-> p = q.
Proof.
  destruct p as [r1 t1], q as [r2 t2]. unfold Pathlib.eqb.
  cbn [Pathlib.root Pathlib.tail]. rewrite andb_true_iff, String.eqb_eq.
  destruct (list_eq_dec string_dec t1 t2) as [->|Hne]; split.
  - now intros [-> _].
  - intros H. injection H as ->. now split.
  - intros [_ H]. discriminate.
  - intros H. injection H as _ H. contradiction.
Qed.

Lemma path_eqb_refl (p : Path) : Pathlib.eqb p p = true.
Proof. now apply path_eqb_eq. Qed.

Lemma path_eqb_neq (p q : Path) : p <> q -> Pathlib.eqb p q = false.
Proof.
  intros H. apply not_true_is_false. intros E. now apply path_eqb_eq in E.
Qed.

Lemma keys_setdefault_append (d : dict) (k : Path) (v : slice) :
  map fst (setdefault_append d k v) =
  map fst d ++ (if existsb (Pathlib.eqb k) (map fst d) then [] else [k]).
Proof.
  induction d as [|[k0 l0] d IH]; cbn [setdefault_append map existsb fst];
    [reflexivity|].
  destruct (Pathlib.eqb k k0); cbn [orb map fst app].
  - now rewrite app_nil_r.
  - now rewrite IH.
Qed.

(** After [setdefault] and [append] the file has its earlier ranges
    followed by the new one. *)
Lemma ranges_of_same (d : dict) (f : Path) (v : slice) :
  ranges_of (setdefault_append d f v) f = ranges_of d f ++ [v].
Proof.
  induction d as [|[k l] d IH]; cbn [setdefault_append ranges_of].
  - now rewrite path_eqb_refl.
  - destruct (Pathlib.eqb f k) eqn:E; cbn [ranges_of]; rewrite E;
      [reflexivity | exact IH].
Qed.

(** The ranges of the other files are as before. *)
Lemma ranges_of_other (d : dict) (f g : Path) (v : slice) :
  g <> f -> ranges_of (setdefault_append d f v) g = ranges_of d g.
Proof.
  intros Hne. induction d as [|[k l] d IH]; cbn [setdefault_append ranges_of].
  - now rewrite (path_eqb_neq g f Hne).
  - destruct (Pathlib.eqb f k) eqn:E; cbn [ranges_of].
    + apply path_eqb_eq in E. subst k.
      now rewrite (path_eqb_neq g f Hne).
    + now rewrite IH.
Qed.

(** ** The claims about [parse_diff] *)

Lemma skip_segments_short (s : string) :
  forall n, count_char "/" s < n -> skip_segments n s = None.
Proof.
  induction s as [|a s IH]; intros n Hn.
  - destruct n; [lia | reflexivity].
  - destruct n as [|n]; [lia|]. cbn [skip_segments count_char] in *.
    destruct (a =? "/")%char.
    + apply IH. lia.
    + destruct (a =? PyStr.LF)%char; [reflexivity|]. apply IH. lia.
Qed.

Lemma no_header_path (n : nat) (line : string) :
  Re.re_match (filename_regex n) line = None -> header_path n line = None.
Proof.
  intros H. pose proof (filename_regex_match n line) as Hm.
  destruct (header_path n line); [|reflexivity].
  destruct Hm as [g Hg]. congruence.
Qed.

Lemma loop_body_unset (n : nat) (d : dict) (line : string) :
  Re.re_match (filename_regex n) line = None ->
  loop_body n (None, d) line = Ok (None, d).
Proof.
  intros H. rewrite loop_body_eq. unfold next_file.
  now rewrite (no_header_path n line H).
Qed.

Lemma for_lines_unset (n : nat) (d : dict) (pre rest : list string) :
  Forall (fun l => Re.re_match (filename_regex n) l = None) pre ->
  for_lines n (None, d) (pre ++ rest) = for_lines n (None, d) rest.
Proof.
  induction 1 as [|l pre Hl _ IH]; [reflexivity|].
  cbn [app for_lines]. now rewrite (loop_body_unset n d l Hl).
Qed.

(** C1 (as amended).  The diff of the end-to-end scenario, parsed with one
    segment to strip, gives a mapping with exactly one path, [a/b/file.py]
    (what is left of [b/a/b/file.py] without its first segment), and for
    it the single range from 3 up to, not including, 7. *)
Theorem parse_diff_scenario :
  parse_diff scenario_diff 1 =
  Ok [(Pathlib.of_string "a/b/file.py", [mkSlice 3 7 1])].
Proof. vm_compute. reflexivity. Qed.

(** C1 (as stated) fails: the path of the scenario is not [b/file.py]. *)
Lemma parse_diff_scenario_not_b_file :
  parse_diff scenario_diff 1 <>
  Ok [(Pathlib.of_string "b/file.py", [mkSlice 3 7 1])].
Proof. vm_compute. discriminate. Qed.

(** X15.  A header line of a new file with fewer slashes than segments to
    strip changes nothing: the cursor and the mapping are as before, so no
    entry is made for that file; and when the cursor was unset, it is
    still unset after the lines that follow up to the next header that
    matches, and none of them records a range. *)
Lemma header_too_short (n : nat) (rest : string) (cur : option Path)
        (d : dict) (ls : list string) :
  count_char "/" rest < n ->
  Forall (fun l => Re.re_match (filename_regex n) l = None) ls ->
  Re.re_match (filename_regex n) ("+++ " ++ rest) = None
  /\ loop_body n (cur, d) ("+++ " ++ rest) = Ok (cur, d)
  /\ for_lines n (None, d) (("+++ " ++ rest)%string :: ls) = Ok (None, d).
Proof.
  intros Hn Hls.
  assert (Hp : header_path n ("+++ " ++ rest) = None).
  { unfold header_path. cbn [append strip_prefix Ascii.eqb Bool.eqb].
    now rewrite (skip_segments_short rest n Hn). }
  assert (Hm : Re.re_match (filename_regex n) ("+++ " ++ rest) = None).
  { pose proof (filename_regex_match n ("+++ " ++ rest)) as H.
    now rewrite Hp in H. }
  assert (Hb : forall c, loop_body n (c, d) ("+++ " ++ rest) = Ok (c, d)).
  { intros c. rewrite loop_body_eq. unfold next_file. rewrite Hp.
    unfold record_hunk. destruct c; [|reflexivity].
    rewrite lineno_regex_match. reflexivity. }
  repeat split; [exact Hm | apply Hb |].
  cbn [for_lines]. rewrite Hb. cbn [rbind].
  rewrite <- (app_nil_r ls). now rewrite for_lines_unset.
Qed.

Example header_too_short_sample :
  count_char "/" "b/x.py" < 2
  /\ Re.re_match (filename_regex 2) ("+++ " ++ "b/x.py") = None
  /\ loop_body 2 (Some (Pathlib.of_string "y.py"), []) ("+++ " ++ "b/x.py")
     = Ok (Some (Pathlib.of_string "y.py"), [])
  /\ for_lines 2 (None, [])
       (("+++ " ++ "b/x.py")%string :: ["@@ -1,2 +3,4 @@"])
     = Ok (None, []).
Proof.
  assert (H : count_char "/" "b/x.py" < 2) by (simpl; lia).
  split; [exact H|].
  apply (header_too_short 2 "b/x.py" (Some (Pathlib.of_string "y.py")) []
           ["@@ -1,2 +3,4 @@"] H).
  repeat constructor.
Defined.

(** C3 fails on the code, in both of its cases.  When the stripping uses
    up the whole path, the cursor is not left unset: it is set to the
    path of the empty string, which is [.], and the hunk that follows is
    recorded under it.  When a header has too few segments after an
    earlier header has matched, the cursor keeps the earlier file, and
    the hunk that follows is recorded for that earlier file. *)
Theorem header_without_path_records :
  for_lines 1 (None, []) ["+++ b/"] = Ok (Some (Pathlib.of_string ""), [])
  /\ Pathlib.str (Pathlib.of_string "") = "."
  /\ parse_diff empty_path_diff 1 =
     Ok [(Pathlib.of_string "", [mkSlice 3 7 1])]
  /\ parse_diff short_header_diff 1 =
     Ok [(Pathlib.of_string "x/f.py", [mkSlice 1 2 1; mkSlice 5 6 1])].
Proof. vm_compute. repeat split. Qed.

(** ** Hunk headers *)

(** C7.  In a mapping [parse_diff] returns every path has at least one
    range and every range ends after it starts; [parse_diff] does return
    one for a count the compiler of patterns accepts and a diff without
    a run of digits longer than what [int] converts.  A hunk header whose
    count is the number 0 records no range: the mapping is as it was,
    and the line is passed over when its line number is within what
    [int] converts. *)
Theorem parse_diff_ranges (diff : string) (n : nat) :
  (forall d,
      parse_diff diff n = Ok d ->
      forall p l, In (p, l) d ->
                  l <> [] /\ Forall (fun sl => (start sl < stop sl)%Z) l)
  /\ ((N.of_nat n < Re.MAXREPEAT)%N ->
      longest_digits diff <= PyStr.int_max_str_digits ->
      exists d, parse_diff diff n = Ok d)
  /\ (forall cur d line m ds es,
         Re.re_match lineno_regex line = Some m ->
         Re.group m 1 = Some ds ->
         Re.group m 3 = Some es ->
         PyStr.int es = Ok 0%Z ->
         (String.length ds <= PyStr.int_max_str_digits ->
          exists cur', loop_body n (cur, d) line = Ok (cur', d))
         /\ (forall st, loop_body n (cur, d) line = Ok st -> snd st = d)).
Proof.
  split; [|split].
  - intros d Hd p l Hin.
    pose proof (parse_diff_invariant (Forall entry_ok) (Forall_nil _)
                  (fun d0 f a c H Ha Hc =>
                     setdefault_append_ok d0 f (mkSlice a (a + c) 1) H
                       ltac:(unfold range_ok; cbn [start stop]; lia))
                  diff n d Hd) as Hok.
    rewrite Forall_forall in Hok. exact (Hok (p, l) Hin).
  - apply parse_diff_returns.
  - intros cur d line m ds es Hm H1 H3 Hint.
    rewrite loop_body_eq. unfold record_hunk.
    destruct (next_file n cur line) as [f|];
      [|split; [now exists None | now intros st [= <-]]].
    rewrite Hm. destruct (lineno_regex_shape line m Hm) as [[ds' [H1' Hds]] _].
    rewrite H1 in H1'. injection H1' as <-.
    rewrite H1, H3. cbn [int_of_group PyStr.truthy_opt].
    destruct (int_digits_ok ds Hds) as [a [_ ->]].
    destruct es as [|e es]; [discriminate|]. cbn [PyStr.truthy].
    destruct (String.length ds <=? PyStr.int_max_str_digits)%nat eqn:E.
    + cbn [rbind]. rewrite Hint. cbn [rbind Z.eqb].
      split; [now exists (Some f) | now intros st [= <-]].
    + apply Nat.leb_gt in E. cbn [rbind].
      split; [lia | discriminate].
Qed.

Lemma parse_diff_ranges_witness :
  parse_diff scenario_diff 1 = Ok scenario_lines
  /\ (forall p l, In (p, l) scenario_lines ->
                  l <> [] /\ Forall (fun sl => (start sl < stop sl)%Z) l)
  /\ (exists d, parse_diff scenario_diff 1 = Ok d)
  /\ (exists cur',
         loop_body 1 (Some (Pathlib.of_string "x.py"), []) "@@ -7 +7,0 @@"
         = Ok (cur', []))
  /\ forall st,
      loop_body 1 (Some (Pathlib.of_string "x.py"), []) "@@ -7 +7,0 @@" = Ok st ->
      snd st = [].
Proof.
  assert (E : parse_diff scenario_diff 1 = Ok scenario_lines)
    by (vm_compute; reflexivity).
  assert (Hn : (N.of_nat 1 < Re.MAXREPEAT)%N) by reflexivity.
  assert (Hlen : longest_digits scenario_diff <= PyStr.int_max_str_digits)
    by (apply Nat.leb_le; vm_compute; reflexivity).
  assert (Hds : String.length "7" <= PyStr.int_max_str_digits)
    by (apply Nat.leb_le; vm_compute; reflexivity).
  destruct (parse_diff_ranges scenario_diff 1) as [H1 [H2 H3]].
  split; [exact E|]. split; [exact (H1 scenario_lines E)|].
  split; [exact (H2 Hn Hlen)|].
  destruct (H3 (Some (Pathlib.of_string "x.py")) [] "@@ -7 +7,0 @@"
               [(2%nat, ",0"); (3%nat, "0"); (1%nat, "7")] "7" "0"
               eq_refl eq_refl eq_refl eq_refl) as [H4 H5].
  split; [exact (H4 Hds) | exact H5].
Defined.




(** The header of the claim, end to end: the range is from 5 to 6. *)
Example parse_diff_without_count :
  parse_diff ("+++ b/src/x.py" ++ nl ++ "@@ -a,b +5 @@" ++ nl) 1 =
  Ok [(Pathlib.of_string "src/x.py", [mkSlice 5 6 1])].
Proof. vm_compute. reflexivity. Qed.






(** ** Children started in a loop *)

Lemma app_same_length {A : Type} (l1 l2 l3 l4 : list A) :
  l1 ++ l2 = l3 ++ l4 -> length l1 = length l3 -> l1 = l3 /\ l2 = l4.
Proof.
  revert l3. induction l1 as [|a l1 IH]; intros [|b l3] H Hlen;
    try discriminate; simpl in *.
  - now split.
  - injection H as -> H. destruct (IH l3 H) as [-> ->]; [lia | now split].
Qed.

Lemma world_eta (w : world) : mkWorld (calls w) (printed w) = w.
Proof. now destruct w. Qed.

Section Loops.

Variable os : list invocation -> invocation -> child.
Variable A : Type.
Variable cmd_of : A -> list string.

(** When every child exits with 0, a loop of [check_call] goes through
    all its items. *)
Lemma for_each_checked_ok (xs : list A) :
  (forall h i, exists out, os h i = Exited 0 out) ->
  forall w,
    for_each (checked_call os cmd_of) xs w =
    (Ok tt, mkWorld (calls w ++ map (call_of cmd_of) xs) (printed w)).
Proof.
  intros Hos. induction xs as [|x xs IH]; intros w; simpl.
  - now rewrite app_nil_r, world_eta.
  - unfold bind at 1.
    unfold checked_call at 1, check_call, subprocess_run, bind.
    unfold call_of.
    destruct (Hos (calls w) (mkInvocation (cmd_of x) None)) as [out ->].
    simpl. rewrite IH. simpl. now rewrite <- app_assoc.
Qed.

(** A loop of [subprocess.run] goes through all its items whatever the
    return codes, as long as the children can be started. *)
Lemma for_each_unchecked_ok (xs : list A) :
  (forall h i why, os h i <> NotStarted why) ->
  forall w,
    for_each (unchecked_call os cmd_of) xs w =
    (Ok tt, mkWorld (calls w ++ map (call_of cmd_of) xs) (printed w)).
Proof.
  intros Hos. induction xs as [|x xs IH]; intros w; simpl.
  - now rewrite app_nil_r, world_eta.
  - unfold bind at 1. unfold unchecked_call at 1, subprocess_run, bind.
    pose proof (Hos (calls w) (mkInvocation (cmd_of x) None)) as Hx.
    destruct (os (calls w) (mkInvocation (cmd_of x) None)) as [rc out|why];
      [|now destruct (Hx why)].
    simpl. rewrite IH. simpl. now rewrite <- app_assoc.
Qed.

(** A loop of [check_call] only adds to the list of children. *)
Lemma for_each_checked_extends (xs : list A) :
  forall w, exists ext,
    calls (snd (for_each (checked_call os cmd_of) xs w)) = calls w ++ ext.
Proof.
  induction xs as [|x xs IH]; intros w; simpl.
  - exists []. now rewrite app_nil_r.
  - unfold bind at 1.
    unfold checked_call at 1, check_call, subprocess_run, bind.
    destruct (os (calls w) (mkInvocation (cmd_of x) None)) as [rc out|why];
      simpl.
    + destruct (rc =? 0)%Z; simpl.
      * destruct (IH (mkWorld (calls w ++ [mkInvocation (cmd_of x) None])
                        (printed w))) as [ext Hext].
        exists (mkInvocation (cmd_of x) None :: ext).
        rewrite Hext. simpl. now rewrite <- app_assoc.
      * now exists [mkInvocation (cmd_of x) None].
    + now exists [mkInvocation (cmd_of x) None].
Qed.

(** In a loop of [check_call], a child that exits with a code other
    than 0 is the last one started, and the loop raises. *)
Lemma for_each_checked_fail_fast (xs : list A) :
  forall w pre c post rc out,
    calls (snd (for_each (checked_call os cmd_of) xs w)) = pre ++ c :: post ->
    length (calls w) <= length pre ->
    os pre c = Exited rc out ->
    rc <> 0%Z ->
    post = []
    /\ fst (for_each (checked_call os cmd_of) xs w) =
       Raise (CalledProcessError rc (argv c)).
Proof.
  induction xs as [|x xs IH]; intros w pre c post rc out Hlog Hlen Hos Hrc.
  - simpl in Hlog. apply (f_equal (@length _)) in Hlog.
    rewrite length_app in Hlog. simpl in Hlog. lia.
  - pose proof (for_each_checked_extends xs
                  (mkWorld (calls w ++ [call_of cmd_of x]) (printed w)))
      as Hext.
    simpl in Hlog |- *. unfold bind at 1 in Hlog. unfold bind at 1.
    unfold checked_call at 1 in Hlog. unfold checked_call at 1.
    unfold check_call, subprocess_run, bind in Hlog |- *.
    fold (call_of cmd_of x) in *.
    assert (Hone : forall l,
               calls w ++ call_of cmd_of x :: l = pre ++ c :: post ->
               length pre = length (calls w) ->
               pre = calls w /\ c = call_of cmd_of x).
    { intros l Hl Hp. symmetry in Hp.
      destruct (app_same_length _ _ _ _ Hl Hp) as [-> Hcons].
      now injection Hcons as -> _. }
    assert (Hlast : calls w ++ [call_of cmd_of x] = pre ++ c :: post ->
                    pre = calls w /\ c = call_of cmd_of x /\ post = []).
    { intros Hl. assert (Hp : length pre = length (calls w)).
      { apply (f_equal (@length _)) in Hl. rewrite !length_app in Hl.
        simpl in Hl. lia. }
      symmetry in Hp.
      destruct (app_same_length _ _ _ _ Hl Hp) as [-> Hcons].
      now injection Hcons as -> ->. }
    destruct (os (calls w) (call_of cmd_of x)) as [r0 o0|why] eqn:Ex;
      simpl in Hlog |- *.
    + destruct (r0 =? 0)%Z eqn:Er0; simpl in Hlog |- *.
      * apply Z.eqb_eq in Er0. subst r0.
        destruct Hext as [ext Hext]. simpl in Hext.
        destruct (Nat.eq_dec (length pre) (length (calls w))) as [Hp|Hp].
        -- rewrite Hext, <- app_assoc in Hlog. simpl in Hlog.
           destruct (Hone _ Hlog Hp) as [-> ->]. congruence.
        -- apply (IH _ pre c post rc out Hlog); auto.
           simpl. rewrite length_app. simpl. lia.
      * destruct (Hlast Hlog) as [-> [-> ->]].
        rewrite Ex in Hos. injection Hos as -> _. now split.
    + destruct (Hlast Hlog) as [-> [-> _]]. congruence.
Qed.

End Loops.

(** ** The script as a whole *)

Lemma main_split (os : list invocation -> invocation -> child)
      (ns : Namespace) (w : world) :
  main os ns w =
  bind (prepare os ns) (fun x => run_checkers os (fst x) (snd x)) w.
Proof.
  unfold main, prepare, run_checkers, bind.
  destruct (parse_args ns w) as [[args|e] w1]; [|reflexivity].
  destruct (find_repo_root os w1) as [[root|e] w2]; [|reflexivity].
  destruct (get_diff os root (ref args) w2) as [[diff|e] w3]; [|reflexivity].
  unfold lift. destruct (parse_diff diff (prefix args)); reflexivity.
Qed.

Lemma main_after_prepare (os : list invocation -> invocation -> child)
      (ns : Namespace) (w0 : world) (args : Namespace) (m : dict) (w : world) :
  prepare os ns w0 = (Ok (args, m), w) ->
  main os ns w0 = run_checkers os args m w.
Proof. intros H. rewrite main_split. unfold bind. now rewrite H. Qed.

Section Checkers.

Variable os : list invocation -> invocation -> child.

Lemma run_formatter_ok (cmd : string) (m : dict) (exts : list string)
      (sep : string) (w : world) :
  (forall h i, exists out, os h i = Exited 0 out) ->
  run_formatter os cmd m exts sep w =
  (Ok tt,
   mkWorld (calls w ++ formatter_calls cmd sep (qualifying exts m))
           (printed w)).
Proof.
  intros Hos. unfold run_formatter.
  now rewrite (for_each_checked_ok os _ (formatter_cmd cmd sep) _ Hos).
Qed.

Lemma run_flake8_ok (cmd : string) (m : dict) (w : world) :
  (forall h i why, os h i <> NotStarted why) ->
  run_flake8 os cmd m w =
  (Ok tt,
   mkWorld
     (calls w
      ++ flake8_calls cmd
           (filter (fun fn => elem (Pathlib.suffix fn) PY_EXTENSIONS)
                   (map fst m)))
     (printed w)).
Proof.
  intros Hos. unfold run_flake8.
  now rewrite (for_each_unchecked_ok os _
                 (fun fn => [cmd; Pathlib.str fn]) _ Hos).
Qed.

Lemma run_formatter_fail_fast (cmd : string) (m : dict)
      (exts : list string) (sep : string) (w : world)
      (pre : list invocation) (c : invocation) (post : list invocation)
      (rc : Z) (out : output) :
  calls (snd (run_formatter os cmd m exts sep w)) = pre ++ c :: post ->
  length (calls w) <= length pre ->
  os pre c = Exited rc out ->
  rc <> 0%Z ->
  post = []
  /\ fst (run_formatter os cmd m exts sep w) =
     Raise (CalledProcessError rc (argv c)).
Proof.
  unfold run_formatter.
  apply (for_each_checked_fail_fast os _ (formatter_cmd cmd sep)).
Qed.

(** An exception in the first formatter ends [main]. *)
Lemma main_raises_clang_format (ns : Namespace) (w0 : world)
      (args : Namespace) (m : dict) (w : world) (e : exn) (w' : world) :
  prepare os ns w0 = (Ok (args, m), w) ->
  PyStr.truthy_opt (clang_format args) = true ->
  run_formatter os (exe (clang_format args)) m CPP_EXTENSIONS ":" w
  = (Raise e, w') ->
  main os ns w0 = (Raise e, w').
Proof.
  intros Hp Hc Hr. rewrite (main_after_prepare os ns w0 args m w Hp).
  unfold run_checkers, bind, when. now rewrite Hc, Hr.
Qed.

(** An exception in the second formatter ends [main]. *)
Lemma main_raises_yapf (ns : Namespace) (w0 : world)
      (args : Namespace) (m : dict) (w w1 : world) (e : exn) (w' : world) :
  prepare os ns w0 = (Ok (args, m), w) ->
  when (PyStr.truthy_opt (clang_format args))
       (run_formatter os (exe (clang_format args)) m CPP_EXTENSIONS ":") w
  = (Ok tt, w1) ->
  PyStr.truthy_opt (yapf args) = true ->
  run_formatter os (exe (yapf args)) m PY_EXTENSIONS "-" w1
  = (Raise e, w') ->
  main os ns w0 = (Raise e, w').
Proof.
  intros Hp Hc Hy Hr. rewrite (main_after_prepare os ns w0 args m w Hp).
  unfold run_checkers, bind. rewrite Hc. unfold when at 1.
  now rewrite Hy, Hr.
Qed.

(** When every child exits with 0, [main] starts the formatters and the
    linter that are switched on, each on all its files. *)
Lemma main_all_ok (ns : Namespace) (w0 : world)
      (args : Namespace) (m : dict) (w : world) :
  (forall h i, exists out, os h i = Exited 0 out) ->
  prepare os ns w0 = (Ok (args, m), w) ->
  main os ns w0 =
  (Ok tt,
   mkWorld
     (calls w
      ++ (if PyStr.truthy_opt (clang_format args)
          then formatter_calls (exe (clang_format args)) ":"
                 (qualifying CPP_EXTENSIONS m)
          else [])
      ++ (if PyStr.truthy_opt (yapf args)
          then formatter_calls (exe (yapf args)) "-"
                 (qualifying PY_EXTENSIONS m)
          else [])
      ++ (if PyStr.truthy_opt (flake8 args)
          then flake8_calls (exe (flake8 args))
                 (filter (fun fn => elem (Pathlib.suffix fn) PY_EXTENSIONS)
                         (map fst m))
          else []))
     (printed w)).
Proof.
  intros Hos Hp. rewrite (main_after_prepare os ns w0 args m w Hp).
  assert (Hstart : forall h i why, os h i <> NotStarted why).
  { intros h i why. destruct (Hos h i) as [out ->]. discriminate. }
  unfold run_checkers, bind, when.
  destruct (PyStr.truthy_opt (clang_format args));
    destruct (PyStr.truthy_opt (yapf args));
    destruct (PyStr.truthy_opt (flake8 args));
    unfold ret;
    repeat (rewrite run_formatter_ok by exact Hos; cbn [calls printed]);
    try (rewrite run_flake8_ok by exact Hstart; cbn [calls printed]);
    rewrite <- ?app_assoc; cbn [app]; rewrite ?app_nil_r, ?world_eta;
    reflexivity.
Qed.

End Checkers.

(** ** Exceptions and the exit status *)

Lemma raises_one_ret {A : Type} (a : A) : raises_one (ret a).
Proof. intros w e w' H. discriminate. Qed.

Lemma raises_one_bind {A B : Type} (m : M A) (f : A -> M B) :
  raises_one m -> (forall a, raises_one (f a)) -> raises_one (bind m f).
Proof.
  intros Hm Hf w e w' H. unfold bind in H.
  destruct (m w) as [[a|e0] w1] eqn:Em.
  - exact (Hf a w1 e w' H).
  - injection H as <- <-. exact (Hm w e0 w1 Em).
Qed.

Lemma raises_one_when (c : bool) (m : M unit) :
  raises_one m -> raises_one (when c m).
Proof. intros Hm. destruct c; [exact Hm | apply raises_one_ret]. Qed.

Lemma raises_one_for_each {A : Type} (f : A -> M unit) (xs : list A) :
  (forall x, raises_one (f x)) -> raises_one (for_each f xs).
Proof.
  intros Hf. induction xs as [|x xs IH]; simpl.
  - apply raises_one_ret.
  - apply raises_one_bind; [apply Hf | intros _; exact IH].
Qed.

Lemma raises_one_print (line : string) : raises_one (print line).
Proof. intros w e w' H. discriminate. Qed.

Lemma raises_one_parse_diff (diff : string) (n : nat) :
  raises_one (lift (parse_diff diff n)).
Proof.
  intros w e w' H. unfold lift in H. injection H as H _.
  destruct (parse_diff_raises diff n e H) as [[-> _] | [-> _]]; reflexivity.
Qed.

Lemma raises_one_parse_args (ns : Namespace) : raises_one (parse_args ns).
Proof.
  unfold parse_args. apply raises_one_bind.
  - apply raises_one_when, raises_one_print.
  - intros _. apply raises_one_ret.
Qed.

Section ExitStatus.

Variable os : list invocation -> invocation -> child.

Lemma raises_one_subprocess_run (cmd : list string) (dir : option string)
      (check : bool) :
  raises_one (subprocess_run os cmd dir check).
Proof.
  intros w e w' H. unfold subprocess_run in H.
  destruct (os (calls w) (mkInvocation cmd dir)) as [rc out|why].
  - destruct (check && negb (rc =? 0)%Z); [|discriminate].
    now injection H as <- _.
  - injection H as <- _. now destruct why.
Qed.

Lemma raises_one_call_pipe (cmd : list string) (dir : option string) :
  raises_one (call_pipe os cmd dir).
Proof.
  unfold call_pipe. apply raises_one_bind.
  - apply raises_one_subprocess_run.
  - intros r. apply raises_one_bind; [|intros text; apply raises_one_ret].
    intros w e w' H. unfold lift in H. injection H as H _.
    destruct (snd r); [discriminate | now injection H as <-].
Qed.

Lemma raises_one_find_repo_root : raises_one (find_repo_root os).
Proof.
  intros w e w' H. unfold find_repo_root in H.
  destruct (call_pipe os ["git"; "rev-parse"; "--show-toplevel"] None w)
    as [[root|e0] w1] eqn:Ec; [discriminate|].
  destruct e0; injection H as <- _; try reflexivity.
  exact (raises_one_call_pipe _ _ w _ w1 Ec).
Qed.

Lemma raises_one_get_diff (repo_root ref : string) :
  raises_one (get_diff os repo_root ref).
Proof.
  unfold get_diff.
  repeat (apply raises_one_bind; [apply raises_one_call_pipe | intros ?]).
  apply raises_one_call_pipe.
Qed.

Lemma raises_one_run_formatter (cmd : string) (m : dict)
      (exts : list string) (sep : string) :
  raises_one (run_formatter os cmd m exts sep).
Proof.
  unfold run_formatter. apply raises_one_for_each. intros t.
  unfold check_call. apply raises_one_bind.
  - apply raises_one_subprocess_run.
  - intros _. apply raises_one_ret.
Qed.

Lemma raises_one_run_flake8 (cmd : string) (m : dict) :
  raises_one (run_flake8 os cmd m).
Proof.
  unfold run_flake8. apply raises_one_for_each. intros fn.
  apply raises_one_bind.
  - apply raises_one_subprocess_run.
  - intros _. apply raises_one_ret.
Qed.

Lemma raises_one_main (ns : Namespace) : raises_one (main os ns).
Proof.
  unfold main.
  apply raises_one_bind; [apply raises_one_parse_args | intros args].
  apply raises_one_bind; [apply raises_one_find_repo_root | intros root].
  apply raises_one_bind; [apply raises_one_get_diff | intros diff].
  apply raises_one_bind; [apply raises_one_parse_diff | intros m].
  apply raises_one_bind;
    [apply raises_one_when, raises_one_run_formatter | intros _].
  apply raises_one_bind;
    [apply raises_one_when, raises_one_run_formatter | intros _].
  apply raises_one_when, raises_one_run_flake8.
Qed.

Lemma exit_status_main (ns : Namespace) (w : world) :
  exit_status (fst (main os ns w)) =
  match fst (main os ns w) with Ok _ => 0%Z | Raise _ => 1%Z end.
Proof.
  destruct (main os ns w) as [[u|e] w'] eqn:E; [reflexivity|].
  exact (raises_one_main ns w e w' E).
Qed.

(** [parse_args] starts no child and leaves what was printed in place. *)
Lemma parse_args_world (ns : Namespace) (w : world) :
  exists args ps,
    parse_args ns w = (Ok args, mkWorld (calls w) (printed w ++ ps)).
Proof.
  unfold parse_args, bind, when, print, ret.
  destruct (negb (py ns || PyStr.truthy_opt (yapf ns)
                  || PyStr.truthy_opt (flake8 ns) || cpp ns)).
  - eexists. eexists. reflexivity.
  - eexists. exists []. now rewrite app_nil_r, world_eta.
Qed.

(** Outside a repository [main] prints the message and exits with 1,
    having started nothing but the query for the root. *)
Lemma main_no_repo (ns : Namespace) (rc : Z) (out : output) :
  os [] git_rev_parse = Exited rc out ->
  rc <> 0%Z ->
  fst (main os ns initial) = Raise (SystemExit 1)
  /\ calls (snd (main os ns initial)) = [git_rev_parse]
  /\ last (printed (snd (main os ns initial))) EmptyString
     = "Failed to determine git root directory. Is this a git repository?".
Proof.
  intros Hos Hrc.
  assert (H : exists ps,
             main os ns initial =
             (Raise (SystemExit 1),
              mkWorld [git_rev_parse]
                (ps ++ ["Failed to determine git root directory. Is this a git repository?"]))).
  { unfold main. unfold bind at 1.
    destruct (parse_args_world ns initial) as [args [ps ->]].
    exists ps. unfold bind at 1.
    unfold find_repo_root, call_pipe, bind at 1, subprocess_run.
    cbn [calls printed initial]. fold git_rev_parse. rewrite Hos.
    apply Z.eqb_neq in Hrc. rewrite Hrc. reflexivity. }
  destruct H as [ps ->]. cbn [fst snd calls printed].
  repeat split. apply last_last.
Qed.

End ExitStatus.

(** ** The claims about the checkers *)

(** What the formatters are given.  When the children exit with 0,
    [run_formatter] starts one child for every file of the mapping whose
    suffix is among the extensions, in the order of the mapping, with the
    command, the file, [-i] and one argument for each range of the file,
    written [--lines=<start><separator><stop>] where [stop] is the end
    that was stored, the line after the last line of the range; [main]
    has the C++ formatter run with a colon for separator and the Python
    formatter with a hyphen. *)
Lemma formatter_arguments (os : list invocation -> invocation -> child) :
  (forall h i, exists out, os h i = Exited 0 out) ->
  (forall cmd m exts sep w,
      run_formatter os cmd m exts sep w =
      (Ok tt,
       mkWorld
         (calls w
          ++ map (fun t =>
                    mkInvocation
                      (cmd :: Pathlib.str (fst t) :: "-i"
                         :: map (fun l =>
                                   ("--lines=" ++ PyStr.str_of_int (start l)
                                      ++ sep
                                      ++ PyStr.str_of_int (stop l))%string)
                              (snd t))
                      None)
               (filter (fun t => elem (Pathlib.suffix (fst t)) exts) m))
         (printed w)))
  /\ (forall ns w0 args m w,
         prepare os ns w0 = (Ok (args, m), w) ->
         main os ns w0 =
         (Ok tt,
          mkWorld
            (calls w
             ++ (if PyStr.truthy_opt (clang_format args)
                 then formatter_calls (exe (clang_format args)) ":"
                        (qualifying CPP_EXTENSIONS m)
                 else [])
             ++ (if PyStr.truthy_opt (yapf args)
                 then formatter_calls (exe (yapf args)) "-"
                        (qualifying PY_EXTENSIONS m)
                 else [])
             ++ (if PyStr.truthy_opt (flake8 args)
                 then flake8_calls (exe (flake8 args))
                        (filter
                           (fun fn => elem (Pathlib.suffix fn) PY_EXTENSIONS)
                           (map fst m))
                 else []))
            (printed w))).
Proof.
  intros Hos. split.
  - intros cmd m exts sep w. exact (run_formatter_ok os cmd m exts sep w Hos).
  - intros ns w0 args m w Hp. exact (main_all_ok os ns w0 args m w Hos Hp).
Qed.

Lemma formatter_arguments_scenario :
  (forall h i, exists out, quiet_os h i = Exited 0 out)
  /\ run_formatter quiet_os "yapf" scenario_lines PY_EXTENSIONS "-" initial =
     (Ok tt,
      mkWorld
        [mkInvocation ["yapf"; "a/b/file.py"; "-i"; "--lines=3-7"] None] []).
Proof.
  assert (H : forall h i, exists out, quiet_os h i = Exited 0 out)
    by (intros h i; exists (Utf8 EmptyString); reflexivity).
  split; [exact H|].
  exact (proj1 (formatter_arguments quiet_os H)
               "yapf" scenario_lines PY_EXTENSIONS "-" initial).
Defined.

(** C2 fails on the code.  The hunk of the scenario adds the lines 3 to
    6, stored as the range from 3 up to, not including, 7.  The Python
    formatter, whose [--lines] takes the first and the last line of a
    range, is started with [--lines=3-7], the end that was stored, and not
    with [--lines=3-6]. *)
Theorem formatter_end_not_decremented :
  map argv (calls (snd (main (sample_os scenario_diff 0) yapf_only initial)))
  = [["git"; "rev-parse"; "--show-toplevel"];
     ["git"; "branch"; "--show-current"];
     ["git"; "merge-base"; "main"; "feature"];
     ["git"; "diff"; "-U0"; "--no-color"; "--relative"; "abc123"];
     ["yapf"; "a/b/file.py"; "-i"; "--lines=3-7"]]
  /\ ~ In ["yapf"; "a/b/file.py"; "-i"; "--lines=3-6"]
       (map argv
            (calls (snd (main (sample_os scenario_diff 0) yapf_only initial)))).
Proof.
  split; [vm_compute; reflexivity|].
  vm_compute. intros H.
  repeat (destruct H as [H|H]; [discriminate H|]). exact H.
Qed.

(** C4.  A child started by [run_formatter] that exits with a code other
    than 0 is the last child [run_formatter] starts, and [run_formatter]
    raises [CalledProcessError]; an exception raised in either formatter
    is the result of [main], with nothing started after it.  [run_flake8]
    starts a child for every Python file of the mapping and returns,
    whatever codes the children exit with. *)
Theorem checker_failures (os : list invocation -> invocation -> child) :
  (forall cmd m exts sep w pre c post rc out,
      calls (snd (run_formatter os cmd m exts sep w)) = pre ++ c :: post ->
      length (calls w) <= length pre ->
      os pre c = Exited rc out ->
      rc <> 0%Z ->
      post = []
      /\ fst (run_formatter os cmd m exts sep w) =
         Raise (CalledProcessError rc (argv c)))
  /\ (forall ns w0 args m w e w',
         prepare os ns w0 = (Ok (args, m), w) ->
         (PyStr.truthy_opt (clang_format args) = true ->
          run_formatter os (exe (clang_format args)) m CPP_EXTENSIONS ":" w
          = (Raise e, w') ->
          main os ns w0 = (Raise e, w'))
         /\ (forall w1,
                when (PyStr.truthy_opt (clang_format args))
                     (run_formatter os (exe (clang_format args)) m
                                    CPP_EXTENSIONS ":") w
                = (Ok tt, w1) ->
                PyStr.truthy_opt (yapf args) = true ->
                run_formatter os (exe (yapf args)) m PY_EXTENSIONS "-" w1
                = (Raise e, w') ->
                main os ns w0 = (Raise e, w')))
  /\ ((forall h i why, os h i <> NotStarted why) ->
      forall cmd m w,
        run_flake8 os cmd m w =
        (Ok tt,
         mkWorld
           (calls w
            ++ map (fun fn => mkInvocation [cmd; Pathlib.str fn] None)
                 (filter (fun fn => elem (Pathlib.suffix fn) PY_EXTENSIONS)
                         (map fst m)))
           (printed w))).
Proof.
  split; [|split].
  - intros cmd m exts sep w pre c post rc out.
    apply run_formatter_fail_fast.
  - intros ns w0 args m w e w' Hp. split.
    + intros Hc Hr.
      exact (main_raises_clang_format os ns w0 args m w e w' Hp Hc Hr).
    + intros w1 Hc Hy Hr.
      exact (main_raises_yapf os ns w0 args m w w1 e w' Hp Hc Hy Hr).
  - intros Hos cmd m w. exact (run_flake8_ok os cmd m w Hos).
Qed.

Lemma sample_os_starts (diff : string) (rc : Z) :
  forall h i why, sample_os diff rc h i <> NotStarted why.
Proof.
  intros h i why. unfold sample_os.
  destruct (argv i) as [|exe [|sub l]]; try discriminate.
  destruct (exe =? "git")%string; [|discriminate].
  destruct (sub =? "rev-parse")%string; [discriminate|].
  destruct (sub =? "branch")%string; [discriminate|].
  destruct (sub =? "merge-base")%string; discriminate.
Qed.

Lemma checker_failures_witness :
  (3 <> 0)%Z
  /\ ([] : list invocation) = []
  /\ fst (run_formatter (sample_os scenario_diff 3) "yapf" two_py_files
                        PY_EXTENSIONS "-" initial)
     = Raise (CalledProcessError 3 ["yapf"; "a.py"; "-i"; "--lines=1-2"])
  /\ run_flake8 (sample_os scenario_diff 3) "flake8" two_py_files initial
     = (Ok tt,
        mkWorld [mkInvocation ["flake8"; "a.py"] None;
                 mkInvocation ["flake8"; "b.py"] None] []).
Proof.
  assert (Hrc : (3 <> 0)%Z) by lia.
  destruct (checker_failures (sample_os scenario_diff 3)) as [HA [_ HC]].
  split; [exact Hrc|].
  split; [|split].
  - exact (proj1 (HA "yapf" two_py_files PY_EXTENSIONS "-" initial []
                     (mkInvocation ["yapf"; "a.py"; "-i"; "--lines=1-2"] None)
                     [] 3%Z (Utf8 EmptyString) eq_refl (le_n 0) eq_refl Hrc)).
  - exact (proj2 (HA "yapf" two_py_files PY_EXTENSIONS "-" initial []
                     (mkInvocation ["yapf"; "a.py"; "-i"; "--lines=1-2"] None)
                     [] 3%Z (Utf8 EmptyString) eq_refl (le_n 0) eq_refl Hrc)).
  - exact (HC (sample_os_starts scenario_diff 3) "flake8" two_py_files initial).
Defined.

(** C5 (as amended).  The exit status of the script is 0 when [main]
    returns and 1 when it ends with an exception.  It is 1, after the
    message about the root has been printed, when the query for the root
    of the repository exits with a code other than 0.  It is 1 as well,
    whatever the code the formatter exited with, when [main] ends with
    the [CalledProcessError] of a formatter. *)
Theorem exit_status_of_main (os : list invocation -> invocation -> child)
        (ns : Namespace) :
  exit_status (fst (main os ns initial)) =
  match fst (main os ns initial) with Ok _ => 0%Z | Raise _ => 1%Z end
  /\ (forall rc out,
         os [] git_rev_parse = Exited rc out ->
         rc <> 0%Z ->
         fst (main os ns initial) = Raise (SystemExit 1)
         /\ exit_status (fst (main os ns initial)) = 1%Z
         /\ calls (snd (main os ns initial)) = [git_rev_parse]
         /\ last (printed (snd (main os ns initial))) EmptyString
            = "Failed to determine git root directory. Is this a git repository?")
  /\ (forall args m w rc cmd w',
         prepare os ns initial = (Ok (args, m), w) ->
         (PyStr.truthy_opt (clang_format args) = true
          /\ run_formatter os (exe (clang_format args)) m CPP_EXTENSIONS ":" w
             = (Raise (CalledProcessError rc cmd), w'))
         \/ (exists w1,
                when (PyStr.truthy_opt (clang_format args))
                     (run_formatter os (exe (clang_format args)) m
                                    CPP_EXTENSIONS ":") w
                = (Ok tt, w1)
                /\ PyStr.truthy_opt (yapf args) = true
                /\ run_formatter os (exe (yapf args)) m PY_EXTENSIONS "-" w1
                   = (Raise (CalledProcessError rc cmd), w')) ->
         fst (main os ns initial) = Raise (CalledProcessError rc cmd)
         /\ exit_status (fst (main os ns initial)) = 1%Z).
Proof.
  split; [apply exit_status_main|]. split.
  - intros rc out Hos Hrc.
    destruct (main_no_repo os ns rc out Hos Hrc) as [Hr [Hc Hp]].
    repeat split; try assumption. now rewrite Hr.
  - intros args m w rc cmd w' Hp [[Hc Hr] | [w1 [Hc [Hy Hr]]]].
    + rewrite (main_raises_clang_format os ns initial args m w _ w' Hp Hc Hr).
      now split.
    + rewrite (main_raises_yapf os ns initial args m w w1 _ w' Hp Hc Hy Hr).
      now split.
Qed.

Lemma exit_status_of_main_witness :
  no_repo_os [] git_rev_parse = Exited 128 (Utf8 EmptyString)
  /\ (128 <> 0)%Z
  /\ fst (main no_repo_os no_option initial) = Raise (SystemExit 1)
  /\ exit_status (fst (main no_repo_os no_option initial)) = 1%Z
  /\ calls (snd (main no_repo_os no_option initial)) = [git_rev_parse]
  /\ last (printed (snd (main no_repo_os no_option initial))) EmptyString
     = "Failed to determine git root directory. Is this a git repository?".
Proof.
  assert (Hrc : (128 <> 0)%Z) by lia.
  split; [reflexivity|]. split; [exact Hrc|].
  exact (proj1 (proj2 (exit_status_of_main no_repo_os no_option))
               128%Z (Utf8 EmptyString) eq_refl Hrc).
Defined.

(** C5 (as stated) fails: when the Python formatter exits with 2, [main]
    ends with the [CalledProcessError] that carries the 2 and the exit
    status of the script is 1. *)
Lemma formatter_code_not_propagated :
  fst (main (sample_os scenario_diff 2) yapf_only initial)
  = Raise (CalledProcessError 2 ["yapf"; "a/b/file.py"; "-i"; "--lines=3-7"])
  /\ exit_status (fst (main (sample_os scenario_diff 2) yapf_only initial))
     = 1%Z
  /\ exit_status (fst (main (sample_os scenario_diff 2) yapf_only initial))
     <> 2%Z.
Proof. vm_compute. repeat split. discriminate. Qed.

(** C6 fails on the code.  With [--clang-format] as the only option the
    script prints that no checkers are enabled, and then runs the C++
    formatter on the file that changed. *)
Theorem warning_with_clang_format :
  main (sample_os cpp_diff 0) clang_format_only initial =
  (Ok tt,
   mkWorld
     [git_rev_parse;
      mkInvocation ["git"; "branch"; "--show-current"] (Some "/repo");
      mkInvocation ["git"; "merge-base"; "main"; "feature"] (Some "/repo");
      mkInvocation
        ["git"; "diff"; "-U0"; "--no-color"; "--relative"; "abc123"]
        (Some "/repo");
      mkInvocation ["clang-format"; "src/x.cpp"; "-i"; "--lines=10:11"] None]
     ["WARNING no checkers are enabled."]).
Proof. vm_compute. reflexivity. Qed.

(** The warning depends on [--py], [--yapf], [--flake8] and [--cpp] only:
    [--clang-format] is not looked at. *)
Lemma parse_args_warning (ns : Namespace) (w : world) :
  printed (snd (parse_args ns w)) =
  printed w
  ++ (if py ns || PyStr.truthy_opt (yapf ns)
         || PyStr.truthy_opt (flake8 ns) || cpp ns
      then []
      else ["WARNING no checkers are enabled."]).
Proof.
  unfold parse_args, bind, when, print, ret.
  destruct (py ns || PyStr.truthy_opt (yapf ns)
            || PyStr.truthy_opt (flake8 ns) || cpp ns);
    cbn [negb snd printed]; [now rewrite app_nil_r | reflexivity].
Qed.

(** Without any option the script prints the warning, asks git for the
    diff, starts no checker and returns. *)
Example no_option_run :
  main (sample_os cpp_diff 0) no_option initial =
  (Ok tt,
   mkWorld
     [git_rev_parse;
      mkInvocation ["git"; "branch"; "--show-current"] (Some "/repo");
      mkInvocation ["git"; "merge-base"; "main"; "feature"] (Some "/repo");
      mkInvocation
        ["git"; "diff"; "-U0"; "--no-color"; "--relative"; "abc123"]
        (Some "/repo")]
     ["WARNING no checkers are enabled."])
  /\ exit_status (fst (main (sample_os cpp_diff 0) no_option initial)) = 0%Z.
Proof. vm_compute. split; reflexivity. Qed.

(** ** More on the loop of [parse_diff] *)

(** X1.  A header of a new file sets the cursor to what follows its first
    [length segs] segments, up to the first blank; the mapping is as
    before.  The path itself may hold further slashes. *)
Theorem header_strips_segments (segs : list string) (p rest : string)
        (cur : option Path) (d : dict) :
  Forall (fun s => all_chars segment_char s = true) segs ->
  all_chars (Re.cls_test Re.NonSpace) p = true ->
  blank_start rest = true ->
  loop_body (length segs) (cur, d)
            ("+++ " ++ segments_text segs ++ p ++ rest)
  = Ok (Some (Pathlib.of_string p), d).
Proof. exact (header_line_step segs p rest cur d). Qed.

Lemma header_strips_segments_witness :
  Forall (fun s => all_chars segment_char s = true) ["b"; "src"]
  /\ all_chars (Re.cls_test Re.NonSpace) "pkg/x.py" = true
  /\ blank_start " (new)" = true
  /\ loop_body 2 (None, []) ("+++ " ++ "b/src/" ++ "pkg/x.py" ++ " (new)")
     = Ok (Some (Pathlib.of_string "pkg/x.py"), []).
Proof.
  assert (H1 : Forall (fun s => all_chars segment_char s = true) ["b"; "src"])
    by (repeat constructor).
  assert (H2 : all_chars (Re.cls_test Re.NonSpace) "pkg/x.py" = true)
    by reflexivity.
  assert (H3 : blank_start " (new)" = true) by reflexivity.
  repeat (split; [assumption|]).
  exact (header_strips_segments ["b"; "src"] "pkg/x.py" " (new)" None []
           H1 H2 H3).
Defined.

(** X2.  A diff made of the header of a file and a hunk header with a
    count, [@@ -a,b +N,M @@], N and M numbers of at most 4300 digits,
    gives that file with the one range from N up to, not including,
    N + M, and the empty mapping when M is 0.  In the middle of a diff,
    with a file under the cursor, such a line adds that range after the
    ranges the file already has, or nothing when M is 0, and leaves the
    other files as they are; what follows the closing [@@] has no
    effect. *)
Theorem hunk_with_count (p a b rest : string) (N M : Z) :
  all_chars (Re.cls_test Re.NonSpace) p = true ->
  all_chars old_side_char a = true ->
  all_chars old_side_char b = true ->
  all_chars inline_char rest = true ->
  (0 <= N)%Z -> (0 <= M)%Z ->
  String.length (PyStr.str_of_int N) <= PyStr.int_max_str_digits ->
  String.length (PyStr.str_of_int M) <= PyStr.int_max_str_digits ->
  parse_diff
    ("+++ " ++ p ++ nl
     ++ "@@ -" ++ a ++ "," ++ b ++ " +" ++ PyStr.str_of_int N ++ ","
     ++ PyStr.str_of_int M ++ " @@" ++ rest ++ nl) 0
  = Ok (if (M =? 0)%Z then []
        else [(Pathlib.of_string p, [mkSlice N (N + M) 1])])
  /\ forall n f d,
      exists d',
        loop_body n (Some f, d)
          ("@@ -" ++ a ++ "," ++ b ++ " +" ++ PyStr.str_of_int N ++ ","
           ++ PyStr.str_of_int M ++ " @@" ++ rest)
        = Ok (Some f, d')
        /\ d' = (if (M =? 0)%Z then d
                 else setdefault_append d f (mkSlice N (N + M) 1))
        /\ ranges_of d' f
           = ranges_of d f
             ++ (if (M =? 0)%Z then [] else [mkSlice N (N + M) 1])
        /\ forall g, g <> f -> ranges_of d' g = ranges_of d g.
Proof.
  intros Hp Ha Hb Hrest HN HM HlenN HlenM.
  pose proof (str_of_int_digits N HN) as Hds.
  pose proof (str_of_int_digits M HM) as Hes.
  pose proof (int_str_of_int N HN HlenN) as HintN.
  pose proof (int_str_of_int M HM HlenM) as HintM.
  assert (Hstep : forall n f d,
             loop_body n (Some f, d)
               ("@@ -" ++ a ++ "," ++ b ++ " +" ++ PyStr.str_of_int N ++ ","
                ++ PyStr.str_of_int M ++ " @@" ++ rest)
             = Ok (Some f,
                   if (M =? 0)%Z then d
                   else setdefault_append d f (mkSlice N (N + M) 1))).
  { intros n f d.
    rewrite (hunk_line_count n f d a b _ _ rest (old_side_plain a Ha)
               (old_side_plain b Hb) Hds Hes).
    now rewrite HintN, HintM. }
  split.
  - rewrite parse_diff_loop by reflexivity.
    replace ("+++ " ++ p ++ nl
             ++ "@@ -" ++ a ++ "," ++ b ++ " +" ++ PyStr.str_of_int N ++ ","
             ++ PyStr.str_of_int M ++ " @@" ++ rest ++ nl)%string
      with (("+++ " ++ p) ++ nl
            ++ ("@@ -" ++ a ++ "," ++ b ++ " +" ++ PyStr.str_of_int N ++ ","
                ++ PyStr.str_of_int M ++ " @@" ++ rest) ++ nl)%string
      by (rewrite !string_app_assoc; reflexivity).
    rewrite splitlines_two.
    + cbn [for_lines]. change (list (Path * list slice)) with dict.
      rewrite (header_line_whole p None [] Hp).
      cbn [rbind]. rewrite Hstep. cbn [rbind snd].
      destruct (M =? 0)%Z; reflexivity.
    + rewrite all_chars_app. apply andb_true_iff. split; [reflexivity|].
      revert Hp. apply all_chars_impl, nonspace_inline.
    + rewrite !all_chars_app, !andb_true_iff.
      repeat split; try reflexivity;
        try (eapply all_chars_impl; [apply old_side_inline | assumption]);
        try (now apply digits_inline); assumption.
  - intros n f d. eexists. split; [apply Hstep|]. split; [reflexivity|].
    destruct (M =? 0)%Z.
    + split; [now rewrite app_nil_r | reflexivity].
    + split; [apply ranges_of_same | intros g Hg; now apply ranges_of_other].
Qed.

Lemma hunk_with_count_witness :
  (0 <= 10)%Z /\ (0 <= 3)%Z
  /\ String.length (PyStr.str_of_int 10) <= PyStr.int_max_str_digits
  /\ parse_diff ("+++ src/x.py" ++ nl ++ "@@ -1,2 +10,3 @@ def f():" ++ nl) 0
     = Ok [(Pathlib.of_string "src/x.py", [mkSlice 10 13 1])]
  /\ parse_diff ("+++ src/x.py" ++ nl ++ "@@ -1,2 +10,0 @@" ++ nl) 0 = Ok []
  /\ exists d',
      loop_body 1
        (Some (Pathlib.of_string "src/x.py"),
         [(Pathlib.of_string "src/x.py", [mkSlice 1 2 1])])
        "@@ -1,2 +10,3 @@ def f():"
      = Ok (Some (Pathlib.of_string "src/x.py"), d')
      /\ d' = [(Pathlib.of_string "src/x.py", [mkSlice 1 2 1; mkSlice 10 13 1])]
      /\ ranges_of d' (Pathlib.of_string "src/x.py")
         = [mkSlice 1 2 1; mkSlice 10 13 1].
Proof.
  assert (HN : (0 <= 10)%Z) by lia.
  assert (HM : (0 <= 3)%Z) by lia.
  assert (H0 : (0 <= 0)%Z) by lia.
  assert (HlenN : String.length (PyStr.str_of_int 10)
                  <= PyStr.int_max_str_digits)
    by (apply Nat.leb_le; vm_compute; reflexivity).
  assert (HlenM : String.length (PyStr.str_of_int 3)
                  <= PyStr.int_max_str_digits)
    by (apply Nat.leb_le; vm_compute; reflexivity).
  assert (Hlen0 : String.length (PyStr.str_of_int 0)
                  <= PyStr.int_max_str_digits)
    by (apply Nat.leb_le; vm_compute; reflexivity).
  split; [exact HN|]. split; [exact HM|]. split; [exact HlenN|].
  split; [|split].
  - exact (proj1 (hunk_with_count "src/x.py" "1" "2" " def f():" 10 3
                    eq_refl eq_refl eq_refl eq_refl HN HM HlenN HlenM)).
  - exact (proj1 (hunk_with_count "src/x.py" "1" "2" "" 10 0
                    eq_refl eq_refl eq_refl eq_refl HN H0 HlenN Hlen0)).
  - destruct (proj2 (hunk_with_count "src/x.py" "1" "2" " def f():" 10 3
                       eq_refl eq_refl eq_refl eq_refl HN HM HlenN HlenM)
                    1 (Pathlib.of_string "src/x.py")
                    [(Pathlib.of_string "src/x.py", [mkSlice 1 2 1])])
      as [d' [H1 [H2 [H3 _]]]].
    exists d'. split; [exact H1|]. split; [exact H2 | exact H3].
Defined.

Lemma strip_prefix_none (p : string) :
  forall s, String.prefix p s = false -> strip_prefix p s = None.
Proof.
  induction p as [|c p IH]; intros [|a s]; simpl; try discriminate;
    try reflexivity.
  destruct (ascii_dec c a) as [->|Hne].
  - rewrite Ascii.eqb_refl. apply IH.
  - intros _. destruct (Ascii.eqb_spec a c); [congruence | reflexivity].
Qed.

(** X3.  A line that starts neither with three plus signs and a blank nor
    with two at signs changes neither the cursor nor the mapping. *)
Theorem other_lines_ignored (n : nat) (cur : option Path) (d : dict)
        (line : string) :
  String.prefix "+++ " line = false ->
  String.prefix "@@" line = false ->
  loop_body n (cur, d) line = Ok (cur, d).
Proof.
  intros Hh Hk. rewrite loop_body_eq. unfold next_file, header_path.
  rewrite (strip_prefix_none _ _ Hh). unfold record_hunk.
  destruct cur; [|reflexivity].
  rewrite lineno_regex_match. unfold hunk_header.
  now rewrite (strip_prefix_none _ _ Hk).
Qed.

Lemma other_lines_ignored_witness :
  String.prefix "+++ " "+x = a[+1] @@ +5,2" = false
  /\ String.prefix "@@" "+x = a[+1] @@ +5,2" = false
  /\ loop_body 1 (Some (Pathlib.of_string "x.py"), []) "+x = a[+1] @@ +5,2"
     = Ok (Some (Pathlib.of_string "x.py"), []).
Proof.
  split; [reflexivity|]. split; [reflexivity|].
  exact (other_lines_ignored 1 (Some (Pathlib.of_string "x.py")) []
           "+x = a[+1] @@ +5,2" eq_refl eq_refl).
Defined.

(** ** Invariants of the mapping *)

Lemma setdefault_append_nodup (d : dict) (k : Path) (v : slice) :
  NoDup (map fst d) -> NoDup (map fst (setdefault_append d k v)).
Proof.
  intros Hd. rewrite keys_setdefault_append.
  destruct (existsb (Pathlib.eqb k) (map fst d)) eqn:E.
  - now rewrite app_nil_r.
  - apply NoDup_app; [exact Hd | repeat constructor; intros [] |].
    intros x Hx [Hk|[]]. subst x.
    assert (existsb (Pathlib.eqb k) (map fst d) = true); [|congruence].
    apply existsb_exists. exists k. split; [exact Hx|].
    now apply path_eqb_eq.
Qed.

(** X4.  No path is twice in a mapping [parse_diff] returns: all the
    ranges of a file are under one key, so that a checker is started
    once for the file; [parse_diff] does return such a mapping for a
    count the compiler of patterns accepts and a diff without a run of
    digits longer than what [int] converts. *)
Theorem parse_diff_keys_unique (diff : string) (n : nat) :
  (forall d, parse_diff diff n = Ok d -> NoDup (map fst d))
  /\ ((N.of_nat n < Re.MAXREPEAT)%N ->
      longest_digits diff <= PyStr.int_max_str_digits ->
      exists d, parse_diff diff n = Ok d /\ NoDup (map fst d)).
Proof.
  assert (H : forall d, parse_diff diff n = Ok d -> NoDup (map fst d)).
  { exact (parse_diff_invariant (fun d => NoDup (map fst d)) (NoDup_nil _)
             (fun d f a c H _ _ => setdefault_append_nodup d f _ H)
             diff n). }
  split; [exact H|]. intros Hn Hlen.
  destruct (parse_diff_returns diff n Hn Hlen) as [d Hd].
  exists d. split; [exact Hd | exact (H d Hd)].
Qed.

Lemma parse_diff_keys_unique_witness :
  parse_diff short_header_diff 1
  = Ok [(Pathlib.of_string "x/f.py", [mkSlice 1 2 1; mkSlice 5 6 1])]
  /\ NoDup [Pathlib.of_string "x/f.py"]
  /\ exists d, parse_diff short_header_diff 1 = Ok d /\ NoDup (map fst d).
Proof.
  assert (E : parse_diff short_header_diff 1
              = Ok [(Pathlib.of_string "x/f.py",
                     [mkSlice 1 2 1; mkSlice 5 6 1])])
    by (vm_compute; reflexivity).
  assert (Hn : (N.of_nat 1 < Re.MAXREPEAT)%N) by reflexivity.
  assert (Hlen : longest_digits short_header_diff <= PyStr.int_max_str_digits)
    by (apply Nat.leb_le; vm_compute; reflexivity).
  destruct (parse_diff_keys_unique short_header_diff 1) as [H1 H2].
  split; [exact E|]. split; [exact (H1 _ E) | exact (H2 Hn Hlen)].
Defined.

Lemma setdefault_append_line_ok (d : dict) (f : Path) (sl : slice) :
  Forall (fun kv => Forall line_ok (snd kv)) d -> line_ok sl ->
  Forall (fun kv => Forall line_ok (snd kv)) (setdefault_append d f sl).
Proof.
  intros Hd Hsl. induction Hd as [|[k l] d' Hl Hd' IH]; simpl.
  - constructor; [|constructor]. simpl. constructor; [exact Hsl|constructor].
  - destruct (Pathlib.eqb f k).
    + constructor; [|exact Hd']. simpl in *.
      apply Forall_app. split; [exact Hl | now constructor].
    + constructor; [exact Hl | exact IH].
Qed.

(** X5.  Every range in a mapping [parse_diff] returns starts at a line
    number that is not negative and has step 1; [parse_diff] does return
    such a mapping for a count the compiler of patterns accepts and a
    diff without a run of digits longer than what [int] converts. *)
Theorem parse_diff_line_numbers (diff : string) (n : nat) :
  (forall d,
      parse_diff diff n = Ok d ->
      Forall (fun kv =>
                Forall (fun sl => (0 <= start sl)%Z /\ step sl = 1%Z)
                       (snd kv)) d)
  /\ ((N.of_nat n < Re.MAXREPEAT)%N ->
      longest_digits diff <= PyStr.int_max_str_digits ->
      exists d,
        parse_diff diff n = Ok d
        /\ Forall (fun kv =>
                     Forall (fun sl => (0 <= start sl)%Z /\ step sl = 1%Z)
                            (snd kv)) d).
Proof.
  assert (H : forall d,
             parse_diff diff n = Ok d ->
             Forall (fun kv => Forall line_ok (snd kv)) d).
  { exact (parse_diff_invariant
             (fun d => Forall (fun kv => Forall line_ok (snd kv)) d)
             (Forall_nil _)
             (fun d f a c H Ha _ =>
                setdefault_append_line_ok d f (mkSlice a (a + c) 1) H
                  (conj Ha eq_refl))
             diff n). }
  split; [exact H|]. intros Hn Hlen.
  destruct (parse_diff_returns diff n Hn Hlen) as [d Hd].
  exists d. split; [exact Hd | exact (H d Hd)].
Qed.

Lemma parse_diff_line_numbers_witness :
  parse_diff scenario_diff 1 = Ok scenario_lines
  /\ Forall (fun kv =>
               Forall (fun sl => (0 <= start sl)%Z /\ step sl = 1%Z)
                      (snd kv)) scenario_lines
  /\ exists d,
      parse_diff scenario_diff 1 = Ok d
      /\ Forall (fun kv =>
                   Forall (fun sl => (0 <= start sl)%Z /\ step sl = 1%Z)
                          (snd kv)) d.
Proof.
  assert (E : parse_diff scenario_diff 1 = Ok scenario_lines)
    by (vm_compute; reflexivity).
  assert (Hn : (N.of_nat 1 < Re.MAXREPEAT)%N) by reflexivity.
  assert (Hlen : longest_digits scenario_diff <= PyStr.int_max_str_digits)
    by (apply Nat.leb_le; vm_compute; reflexivity).
  destruct (parse_diff_line_numbers scenario_diff 1) as [H1 H2].
  split; [exact E|]. split; [exact (H1 _ E) | exact (H2 Hn Hlen)].
Defined.

Lemma extends_refl (d : dict) : extends d d.
Proof.
  split.
  - exists []. now rewrite app_nil_r.
  - apply Forall_forall. intros [k l] Hin. exists []. cbn [fst snd].
    now rewrite app_nil_r.
Qed.

Lemma extends_trans (d1 d2 d3 : dict) :
  extends d1 d2 -> extends d2 d3 -> extends d1 d3.
Proof.
  intros [[ks1 Hk1] Hr1] [[ks2 Hk2] Hr2]. split.
  - exists (ks1 ++ ks2). now rewrite Hk2, Hk1, app_assoc.
  - rewrite Forall_forall in *. intros kv Hin.
    destruct (Hr1 kv Hin) as [l1 H1].
    destruct (Hr2 _ H1) as [l2 H2]. cbn [fst snd] in H2.
    exists (l1 ++ l2). now rewrite app_assoc.
Qed.

Lemma setdefault_append_extends (d : dict) (k : Path) (v : slice) :
  extends d (setdefault_append d k v).
Proof.
  split.
  - eexists. apply keys_setdefault_append.
  - induction d as [|[k0 l0] d IH]; [constructor|].
    cbn [setdefault_append]. destruct (Pathlib.eqb k k0).
    + constructor.
      * exists [v]. now left.
      * apply Forall_forall. intros [k1 l1] Hin. exists []. cbn [fst snd].
        rewrite app_nil_r. now right.
    + constructor.
      * exists []. cbn [fst snd]. rewrite app_nil_r. now left.
      * eapply Forall_impl; [|exact IH].
        intros kv [l' Hl']. exists l'. now right.
Qed.

(** X6.  Reading further lines only adds to what has been recorded:
    when the loop returns after the lines [ls1 ++ ls2], it returned after
    [ls1], the paths recorded then keep their places, new paths come
    after them, and under every path the ranges recorded then stay
    first, in their order.  Ranges are not merged, sorted or dropped.
    The loop does return when no line has a run of digits longer than
    what [int] converts. *)
Theorem more_lines_extend (n : nat) (ls1 ls2 : list string)
        (cur : option Path) (d : dict) :
  (forall c2 d2,
      for_lines n (cur, d) (ls1 ++ ls2) = Ok (c2, d2) ->
      exists c1 d1,
        for_lines n (cur, d) ls1 = Ok (c1, d1)
        /\ (exists ks, map fst d2 = map fst d1 ++ ks)
        /\ Forall (fun kv => exists l', In (fst kv, snd kv ++ l') d2) d1)
  /\ (Forall (fun l => longest_digits l <= PyStr.int_max_str_digits)
             (ls1 ++ ls2) ->
      exists c2 d2, for_lines n (cur, d) (ls1 ++ ls2) = Ok (c2, d2)).
Proof.
  split.
  - intros c2 d2 H. rewrite for_lines_app in H.
    destruct (for_lines n (cur, d) ls1) as [[c1 d1]|e] eqn:E1;
      [|discriminate].
    cbn [rbind] in H. exists c1, d1. split; [reflexivity|].
    exact (for_lines_invariant (extends d1)
             (fun d' f a c H _ _ =>
                extends_trans d1 d' _ H (setdefault_append_extends d' f _))
             n ls2 c1 d1 c2 d2 (extends_refl d1) H).
  - intros Hls. apply for_lines_returns. revert Hls.
    apply Forall_impl. intros l. apply short_numbers_longest.
Qed.

Lemma more_lines_extend_witness :
  for_lines 1 (None, [])
    (["+++ b/x/f.py"; "@@ -1 +1 @@"] ++ ["@@ -7 +5 @@"; "+++ b/g.py"; "@@ -2 +9,2 @@"])
  = Ok (Some (Pathlib.of_string "g.py"),
        [(Pathlib.of_string "x/f.py", [mkSlice 1 2 1; mkSlice 5 6 1]);
         (Pathlib.of_string "g.py", [mkSlice 9 11 1])])
  /\ (exists c1 d1,
         for_lines 1 (None, []) ["+++ b/x/f.py"; "@@ -1 +1 @@"] = Ok (c1, d1)
         /\ (exists ks,
                [Pathlib.of_string "x/f.py"; Pathlib.of_string "g.py"]
                = map fst d1 ++ ks)
         /\ Forall
              (fun kv =>
                 exists l',
                   In (fst kv, snd kv ++ l')
                      [(Pathlib.of_string "x/f.py",
                        [mkSlice 1 2 1; mkSlice 5 6 1]);
                       (Pathlib.of_string "g.py", [mkSlice 9 11 1])])
              d1)
  /\ exists c2 d2,
      for_lines 1 (None, [])
        (["+++ b/x/f.py"; "@@ -1 +1 @@"]
         ++ ["@@ -7 +5 @@"; "+++ b/g.py"; "@@ -2 +9,2 @@"])
      = Ok (c2, d2).
Proof.
  assert (E : for_lines 1 (None, [])
                (["+++ b/x/f.py"; "@@ -1 +1 @@"]
                 ++ ["@@ -7 +5 @@"; "+++ b/g.py"; "@@ -2 +9,2 @@"])
              = Ok (Some (Pathlib.of_string "g.py"),
                    [(Pathlib.of_string "x/f.py",
                      [mkSlice 1 2 1; mkSlice 5 6 1]);
                     (Pathlib.of_string "g.py", [mkSlice 9 11 1])]))
    by (vm_compute; reflexivity).
  assert (Hls : Forall (fun l => longest_digits l <= PyStr.int_max_str_digits)
                       (["+++ b/x/f.py"; "@@ -1 +1 @@"]
                        ++ ["@@ -7 +5 @@"; "+++ b/g.py"; "@@ -2 +9,2 @@"]))
    by (cbn [app];
        repeat (apply Forall_cons; [apply Nat.leb_le; vm_compute; reflexivity|]);
        apply Forall_nil).
  destruct (more_lines_extend 1 ["+++ b/x/f.py"; "@@ -1 +1 @@"]
              ["@@ -7 +5 @@"; "+++ b/g.py"; "@@ -2 +9,2 @@"] None [])
    as [H1 H2].
  split; [exact E|]. split; [exact (H1 _ _ E) | exact (H2 Hls)].
Defined.

(** ** More on the checkers *)

Section MoreLoops.

Variable os : list invocation -> invocation -> child.
Variable A : Type.
Variable cmd_of : A -> list string.

Lemma for_each_cons (f : A -> M unit) (x : A) (xs : list A) (w : world) :
  for_each f (x :: xs) w =
  match f x w with
  | (Ok _, w1) => for_each f xs w1
  | (Raise e, w1) => (Raise e, w1)
  end.
Proof. reflexivity. Qed.

Lemma checked_call_eq (x : A) (w : world) :
  checked_call os cmd_of x w =
  match os (calls w) (call_of cmd_of x) with
  | Exited rc out =>
      if (rc =? 0)%Z
      then (Ok tt, mkWorld (calls w ++ [call_of cmd_of x]) (printed w))
      else (Raise (CalledProcessError rc (cmd_of x)),
            mkWorld (calls w ++ [call_of cmd_of x]) (printed w))
  | NotStarted why =>
      (Raise (start_exn why),
       mkWorld (calls w ++ [call_of cmd_of x]) (printed w))
  end.
Proof.
  unfold checked_call, check_call, subprocess_run, bind, call_of.
  destruct (os (calls w) (mkInvocation (cmd_of x) None)) as [rc out|why];
    [|reflexivity].
  destruct (rc =? 0)%Z; reflexivity.
Qed.

Lemma unchecked_call_eq (x : A) (w : world) :
  unchecked_call os cmd_of x w =
  match os (calls w) (call_of cmd_of x) with
  | Exited rc out =>
      (Ok tt, mkWorld (calls w ++ [call_of cmd_of x]) (printed w))
  | NotStarted why =>
      (Raise (start_exn why),
       mkWorld (calls w ++ [call_of cmd_of x]) (printed w))
  end.
Proof.
  unfold unchecked_call, subprocess_run, bind, call_of.
  destruct (os (calls w) (mkInvocation (cmd_of x) None)); reflexivity.
Qed.

(** A loop of [check_call] starts the children of the first items, in
    order, and prints nothing; it returns after all of them or raises. *)
Lemma for_each_checked_prefix (xs : list A) :
  forall w, exists k,
    calls (snd (for_each (checked_call os cmd_of) xs w))
    = calls w ++ firstn k (map (call_of cmd_of) xs)
    /\ printed (snd (for_each (checked_call os cmd_of) xs w)) = printed w
    /\ ((fst (for_each (checked_call os cmd_of) xs w) = Ok tt
         /\ k = length xs)
        \/ exists e,
            fst (for_each (checked_call os cmd_of) xs w) = Raise e).
Proof.
  induction xs as [|x xs IH]; intros w.
  - exists 0. cbn. rewrite app_nil_r. auto.
  - rewrite for_each_cons, checked_call_eq.
    destruct (os (calls w) (call_of cmd_of x)) as [rc out|why].
    + destruct (rc =? 0)%Z.
      * destruct (IH (mkWorld (calls w ++ [call_of cmd_of x]) (printed w)))
          as [k [Hc [Hp Hr]]].
        exists (S k). cbn [calls printed] in Hc, Hp.
        rewrite Hc, Hp, <- app_assoc. cbn [map firstn app length].
        repeat split. destruct Hr as [[Hr ->] | Hr]; auto.
      * exists 1. cbn. repeat split. right. eauto.
    + exists 1. cbn. repeat split. right. eauto.
Qed.

(** A loop of [subprocess.run] does the same whatever the return
    codes; it raises only when a child cannot be started, which is then
    the last one it tried, with the exception of that failure. *)
Lemma for_each_unchecked_prefix (xs : list A) :
  forall w, exists k,
    calls (snd (for_each (unchecked_call os cmd_of) xs w))
    = calls w ++ firstn k (map (call_of cmd_of) xs)
    /\ printed (snd (for_each (unchecked_call os cmd_of) xs w)) = printed w
    /\ ((fst (for_each (unchecked_call os cmd_of) xs w) = Ok tt
         /\ k = length xs)
        \/ exists pre c why,
            firstn k (map (call_of cmd_of) xs) = pre ++ [c]
            /\ os (calls w ++ pre) c = NotStarted why
            /\ fst (for_each (unchecked_call os cmd_of) xs w)
               = Raise (start_exn why)).
Proof.
  induction xs as [|x xs IH]; intros w.
  - exists 0. cbn. rewrite app_nil_r. auto.
  - rewrite for_each_cons, unchecked_call_eq.
    destruct (os (calls w) (call_of cmd_of x)) as [rc out|why] eqn:Ex.
    + destruct (IH (mkWorld (calls w ++ [call_of cmd_of x]) (printed w)))
        as [k [Hc [Hp Hr]]].
      exists (S k). cbn [calls printed] in Hc, Hp, Hr.
      rewrite Hc, Hp, <- app_assoc. cbn [map firstn app length].
      repeat split.
      destruct Hr as [[Hr ->] | [pre [c [why [Hk [Hos Hr]]]]]]; [auto|].
      right. exists (call_of cmd_of x :: pre), c, why.
      rewrite Hk. rewrite <- app_assoc in Hos. cbn [app] in Hos |- *.
      auto.
    + exists 1. cbn [map firstn calls printed snd fst]. repeat split.
      right. exists [], (call_of cmd_of x), why.
      rewrite app_nil_r. auto.
Qed.

End MoreLoops.

(** X7.  Whatever the children do, the children [run_formatter] starts
    are the first ones of this list: one for each file of the mapping
    whose suffix is among the extensions, in the order of the mapping,
    with all the ranges of the file and without a working directory.
    When it returns it has started them all; it prints nothing. *)
Theorem run_formatter_children
        (os : list invocation -> invocation -> child) (cmd : string)
        (m : dict) (exts : list string) (sep : string) (w : world) :
  exists k,
    calls (snd (run_formatter os cmd m exts sep w))
    = calls w ++ firstn k (formatter_calls cmd sep (qualifying exts m))
    /\ printed (snd (run_formatter os cmd m exts sep w)) = printed w
    /\ ((fst (run_formatter os cmd m exts sep w) = Ok tt
         /\ k = length (qualifying exts m))
        \/ exists e, fst (run_formatter os cmd m exts sep w) = Raise e).
Proof.
  exact (for_each_checked_prefix os _ (formatter_cmd cmd sep)
           (qualifying exts m) w).
Qed.

(** X8.  Whatever the children do, [run_flake8] starts children only for
    the Python files of the mapping, one for each, in order, and prints
    nothing.  The return codes have no effect: it goes through all the
    files and returns, unless a child cannot be started; that child is
    then the last one it tried, and the exception is the one of that
    failure. *)
Theorem run_flake8_children
        (os : list invocation -> invocation -> child) (cmd : string)
        (m : dict) (w : world) :
  exists k,
    calls (snd (run_flake8 os cmd m w))
    = calls w
      ++ firstn k
           (flake8_calls cmd
              (filter (fun fn => elem (Pathlib.suffix fn) PY_EXTENSIONS)
                      (map fst m)))
    /\ printed (snd (run_flake8 os cmd m w)) = printed w
    /\ ((fst (run_flake8 os cmd m w) = Ok tt
         /\ k = length (filter
                         (fun fn => elem (Pathlib.suffix fn) PY_EXTENSIONS)
                         (map fst m)))
        \/ exists pre c why,
            firstn k
              (flake8_calls cmd
                 (filter (fun fn => elem (Pathlib.suffix fn) PY_EXTENSIONS)
                         (map fst m)))
            = pre ++ [c]
            /\ os (calls w ++ pre) c = NotStarted why
            /\ fst (run_flake8 os cmd m w) = Raise (start_exn why)).
Proof.
  exact (for_each_unchecked_prefix os _ (fun fn => [cmd; Pathlib.str fn])
           (filter (fun fn => elem (Pathlib.suffix fn) PY_EXTENSIONS)
                   (map fst m)) w).
Qed.

(** A linter that may not be run: the first child cannot be started, and
    the exception is [PermissionError]. *)
Example run_flake8_no_permission :
  run_flake8 no_permission_os "flake8" two_py_files initial
  = (Raise PermissionError,
     mkWorld [mkInvocation ["flake8"; "a.py"] None] []).
Proof. vm_compute. reflexivity. Qed.

Lemma extensions_disjoint (s : string) :
  elem s CPP_EXTENSIONS = true -> elem s PY_EXTENSIONS = false.
Proof.
  intros H. unfold elem, PY_EXTENSIONS. cbn [existsb].
  destruct (String.eqb_spec s ".py") as [->|Hne]; [|reflexivity].
  discriminate H.
Qed.

(** X9.  No file is given to both formatters: among the files the C++
    formatter is run on, none qualifies for the Python formatter, and the
    other way round. *)
Theorem formatters_share_no_file (m : dict) :
  qualifying PY_EXTENSIONS (qualifying CPP_EXTENSIONS m) = []
  /\ qualifying CPP_EXTENSIONS (qualifying PY_EXTENSIONS m) = [].
Proof.
  unfold qualifying. split; induction m as [|t m IH]; cbn [filter];
    try reflexivity.
  - destruct (elem (Pathlib.suffix (fst t)) CPP_EXTENSIONS) eqn:E;
      [|exact IH].
    cbn [filter]. now rewrite (extensions_disjoint _ E).
  - destruct (elem (Pathlib.suffix (fst t)) PY_EXTENSIONS) eqn:E;
      [|exact IH].
    cbn [filter].
    destruct (elem (Pathlib.suffix (fst t)) CPP_EXTENSIONS) eqn:E';
      [|exact IH].
    rewrite (extensions_disjoint _ E') in E. discriminate E.
Qed.

(** ** The arguments and the queries to git *)

(** What [parse_args] returns and prints. *)
Lemma parse_args_closed (ns : Namespace) (w : world) :
  parse_args ns w =
  (Ok (mkNamespace (py ns)
                   (enabled_name (py ns) (yapf ns) "yapf")
                   (enabled_name (py ns) (flake8 ns) "flake8")
                   (cpp ns)
                   (enabled_name (cpp ns) (clang_format ns) "clang-format")
                   (ref ns) (prefix ns)),
   mkWorld (calls w)
           (printed w
            ++ (if py ns || PyStr.truthy_opt (yapf ns)
                   || PyStr.truthy_opt (flake8 ns) || cpp ns
                then []
                else ["WARNING no checkers are enabled."]))).
Proof.
  destruct ns as [p y f c cf r n]. unfold parse_args, enabled_name.
  unfold bind, when, print, ret.
  destruct p, c, y as [[|? ?]|], f as [[|? ?]|], cf as [[|? ?]|];
    cbn [negb orb andb py yapf flake8 cpp clang_format ref prefix
         PyStr.truthy_opt PyStr.truthy calls printed];
    rewrite ?app_nil_r, ?world_eta; reflexivity.
Qed.

(** The outcomes of [find_repo_root]: the output of git, decoded and
    without the blanks around it; [UnicodeDecodeError] when it does not
    decode; exit with 1 after the message when git exits with a code
    other than 0; and, when git cannot be started, the exception of that
    failure, which is not caught and comes without the message. *)
Lemma find_repo_root_outcomes
      (os : list invocation -> invocation -> child) (w : world) :
  find_repo_root os w =
  match os (calls w) git_rev_parse with
  | Exited rc out =>
      if (rc =? 0)%Z
      then (match out with
            | Utf8 text => Ok (PyStr.strip text)
            | NotUtf8 => Raise UnicodeDecodeError
            end,
            mkWorld (calls w ++ [git_rev_parse]) (printed w))
      else (Raise (SystemExit 1),
            mkWorld (calls w ++ [git_rev_parse])
                    (printed w
                     ++ ["Failed to determine git root directory. Is this a git repository?"]))
  | NotStarted why =>
      (Raise (start_exn why),
       mkWorld (calls w ++ [git_rev_parse]) (printed w))
  end.
Proof.
  unfold find_repo_root, call_pipe, subprocess_run, bind, lift, decode.
  fold git_rev_parse.
  destruct (os (calls w) git_rev_parse) as [rc out|why];
    [|destruct why; reflexivity].
  destruct (rc =? 0)%Z; [destruct out|]; reflexivity.
Qed.

Lemma call_pipe_ok (os : list invocation -> invocation -> child)
      (cmd : list string) (dir : option string) (w : world) (out : output) :
  os (calls w) (mkInvocation cmd dir) = Exited 0 out ->
  call_pipe os cmd dir w =
  (match out with
   | Utf8 text => Ok (PyStr.strip text)
   | NotUtf8 => Raise UnicodeDecodeError
   end,
   mkWorld (calls w ++ [mkInvocation cmd dir]) (printed w)).
Proof.
  intros H. unfold call_pipe, subprocess_run, bind, lift, decode.
  rewrite H. cbn [andb negb Z.eqb snd]. now destruct out.
Qed.

Lemma call_pipe_fails (os : list invocation -> invocation -> child)
      (cmd : list string) (dir : option string) (w : world)
      (rc : Z) (out : output) :
  os (calls w) (mkInvocation cmd dir) = Exited rc out ->
  rc <> 0%Z ->
  call_pipe os cmd dir w =
  (Raise (CalledProcessError rc cmd),
   mkWorld (calls w ++ [mkInvocation cmd dir]) (printed w)).
Proof.
  intros H Hrc. unfold call_pipe, subprocess_run, bind. rewrite H.
  apply Z.eqb_neq in Hrc. now rewrite Hrc.
Qed.

(** X12.  [get_diff] asks git, in the root of the repository, for the
    current branch, then for the common ancestor of the reference and
    that branch, then for the diff against that ancestor; each answer is
    decoded and used without the blanks around it, and the diff is
    returned the same way.  When the diff is not UTF-8, [get_diff] ends
    with [UnicodeDecodeError] after the three queries. *)
Theorem get_diff_queries
        (os : list invocation -> invocation -> child)
        (repo_root ref : string) (w : world) (b c : string) (out : output) :
  os (calls w) (git_branch repo_root) = Exited 0 (Utf8 b) ->
  os (calls w ++ [git_branch repo_root])
     (git_merge_base repo_root ref (PyStr.strip b)) = Exited 0 (Utf8 c) ->
  os (calls w ++ [git_branch repo_root;
                  git_merge_base repo_root ref (PyStr.strip b)])
     (git_diff repo_root (PyStr.strip c)) = Exited 0 out ->
  get_diff os repo_root ref w =
  (match out with
   | Utf8 d => Ok (PyStr.strip d)
   | NotUtf8 => Raise UnicodeDecodeError
   end,
   mkWorld (calls w ++ [git_branch repo_root;
                        git_merge_base repo_root ref (PyStr.strip b);
                        git_diff repo_root (PyStr.strip c)])
           (printed w)).
Proof.
  unfold git_branch, git_merge_base, git_diff.
  intros Hb Hc Hd. unfold get_diff. unfold bind at 1.
  rewrite (call_pipe_ok os _ _ w _ Hb). cbv beta iota. unfold bind at 1.
  rewrite (call_pipe_ok os _ _ (mkWorld _ _) _ Hc). cbv beta iota.
  cbn [calls printed]. rewrite <- app_assoc. cbn [app].
  rewrite (call_pipe_ok os _ _ (mkWorld _ _) _ Hd).
  cbn [calls printed]. now rewrite <- app_assoc.
Qed.

Lemma get_diff_queries_witness :
  sample_os cpp_diff 0 [] (git_branch "/repo")
  = Exited 0 (Utf8 ("feature" ++ nl))
  /\ get_diff (sample_os cpp_diff 0) "/repo" "main" initial =
     (Ok (PyStr.strip cpp_diff),
      mkWorld [git_branch "/repo";
               git_merge_base "/repo" "main" "feature";
               git_diff "/repo" "abc123"] [])
  /\ get_diff latin1_os "/repo" "main" initial =
     (Raise UnicodeDecodeError,
      mkWorld [git_branch "/repo";
               git_merge_base "/repo" "main" "feature";
               git_diff "/repo" "abc123"] []).
Proof.
  split; [reflexivity|]. split.
  - exact (get_diff_queries (sample_os cpp_diff 0) "/repo" "main" initial
             ("feature" ++ nl) ("abc123" ++ nl) (Utf8 cpp_diff)
             eq_refl eq_refl eq_refl).
  - exact (get_diff_queries latin1_os "/repo" "main" initial
             ("feature" ++ nl) ("abc123" ++ nl) NotUtf8
             eq_refl eq_refl eq_refl).
Defined.

(** X13.  A reference git does not know: when the query for the common
    ancestor exits with a code other than 0, [main] ends with its
    [CalledProcessError], exit status 1, after three queries to git;
    nothing is printed for it and no checker is started. *)
Theorem unknown_reference
        (os : list invocation -> invocation -> child) (ns : Namespace)
        (r b : string) (out : output) (rc : Z) :
  os [] git_rev_parse = Exited 0 (Utf8 r) ->
  os [git_rev_parse] (git_branch (PyStr.strip r)) = Exited 0 (Utf8 b) ->
  os [git_rev_parse; git_branch (PyStr.strip r)]
     (git_merge_base (PyStr.strip r) (ref ns) (PyStr.strip b))
  = Exited rc out ->
  rc <> 0%Z ->
  fst (main os ns initial)
  = Raise (CalledProcessError rc
             ["git"; "merge-base"; ref ns; PyStr.strip b])
  /\ exit_status (fst (main os ns initial)) = 1%Z
  /\ calls (snd (main os ns initial))
     = [git_rev_parse; git_branch (PyStr.strip r);
        git_merge_base (PyStr.strip r) (ref ns) (PyStr.strip b)]
  /\ printed (snd (main os ns initial))
     = printed (snd (parse_args ns initial)).
Proof.
  intros Hr Hb Hm Hrc.
  assert (H : main os ns initial =
              (Raise (CalledProcessError rc
                        ["git"; "merge-base"; ref ns; PyStr.strip b]),
               mkWorld [git_rev_parse; git_branch (PyStr.strip r);
                        git_merge_base (PyStr.strip r) (ref ns)
                                       (PyStr.strip b)]
                       (printed (snd (parse_args ns initial))))).
  { unfold git_branch, git_merge_base in *.
    unfold main. unfold bind at 1. rewrite !parse_args_closed.
    cbv beta iota. cbn [snd printed calls initial app ref].
    unfold bind at 1. rewrite find_repo_root_outcomes.
    cbn [calls printed app]. rewrite Hr. cbn [Z.eqb]. cbv beta iota.
    unfold bind at 1. unfold get_diff. unfold bind at 1.
    rewrite (call_pipe_ok os _ _ (mkWorld _ _) _ Hb). cbv beta iota.
    cbn [calls printed app]. unfold bind at 1.
    rewrite (call_pipe_fails os _ _ (mkWorld _ _) rc out Hm Hrc).
    reflexivity. }
  rewrite H. cbn [fst snd calls printed exit_status]. repeat split.
Qed.

Lemma unknown_reference_witness :
  unknown_ref_os [] git_rev_parse = Exited 0 (Utf8 ("/repo" ++ nl))
  /\ (128 <> 0)%Z
  /\ fst (main unknown_ref_os yapf_only initial)
     = Raise (CalledProcessError 128 ["git"; "merge-base"; "main"; "feature"])
  /\ exit_status (fst (main unknown_ref_os yapf_only initial)) = 1%Z
  /\ calls (snd (main unknown_ref_os yapf_only initial))
     = [git_rev_parse; git_branch "/repo";
        git_merge_base "/repo" "main" "feature"]
  /\ printed (snd (main unknown_ref_os yapf_only initial))
     = printed (snd (parse_args yapf_only initial)).
Proof.
  assert (Hrc : (128 <> 0)%Z) by lia.
  split; [reflexivity|]. split; [exact Hrc|].
  exact (unknown_reference unknown_ref_os yapf_only ("/repo" ++ nl)
           ("feature" ++ nl) (Utf8 EmptyString) 128%Z eq_refl eq_refl eq_refl
           Hrc).
Defined.



